(** * Company profile chatbot: the conversation stage controller

    A shallow embedding of [src/main.py] (class [RAGApp]): the e-mail
    validator, the session state kept in [st.session_state], and the body of
    [RAGApp.main], which Streamlit executes from top to bottom once per user
    interaction.

    Conventions of the embedding.
    - A Python [str] is a [string]: the sequence of its UTF-8 bytes.  Every
      character the program inspects (the regular expression's classes and
      literals, the newline of [$]) is ASCII, and no byte of a multi-byte
      UTF-8 sequence is ASCII, so the byte view and the code-point view agree
      on every test the program makes.
    - The string constants used as tags (['user'] / ['system'], the six stage
      names, the radio options ['Yes'] / ['No']) are enumerations.
    - A value that may be Python's [None] is an [option].
    - One execution of the script is a computation in a small monad that
      threads the session state, collects what the run emits (display calls,
      [print], calls to the external libraries) and may stop with a raised
      exception; the state reached when the exception is raised is kept, as
      [st.session_state] is mutated in place. *)

From Stdlib Require Import String Ascii List Bool Arith NArith Lia.
Import ListNotations.
Local Open Scope list_scope.
Local Open Scope string_scope.

(** ** Python's [re.match] on the patterns the program uses *)

Module Sre.

(** Members of a character set [[...]]. *)
Inductive set_item : Type :=
| RANGE (lo hi : ascii)
| CHAR (c : ascii).

(** Parsed pattern items, after the names of [sre_parse]: every repetition
    in the program's pattern is over a single character set. *)
Inductive node : Type :=
| AT_BEGINNING                                   (* ^ *)
| AT_END                                         (* $ *)
| LITERAL (c : ascii)
| IN (items : list set_item)
| MAX_REPEAT (lo : nat) (hi : option nat) (items : list set_item).

Definition pattern : Type := list node.

Definition in_item (c : ascii) (i : set_item) : bool :=
  match i with
  | RANGE lo hi =>
      (N_of_ascii lo <=? N_of_ascii c)%N && (N_of_ascii c <=? N_of_ascii hi)%N
  | CHAR d => Ascii.eqb c d
  end.

Definition in_set (items : list set_item) (c : ascii) : bool :=
  existsb (in_item c) items.

Definition newline : ascii := "010"%char.

(** [$] without [re.MULTILINE]: at the end of the subject, or just before
    a newline that is the subject's last character. *)
Definition at_end (rest : string) : bool :=
  match rest with
  | EmptyString => true
  | String c EmptyString => Ascii.eqb c newline
  | String _ (String _ _) => false
  end.

Definition room (hi : option nat) : bool :=
  match hi with
  | None => true
  | Some n => (0 <? n)%nat
  end.

(** Greedy repetition of a character set with backtracking: take one more
    character when allowed and retry the continuation on failure. [pos] is
    the number of characters consumed so far. *)
Fixpoint max_repeat (items : list set_item) (lo : nat) (hi : option nat)
         (k : nat -> string -> bool) (pos : nat) (s : string) {struct s} : bool :=
  let stop := (lo =? 0)%nat && k pos s in
  match s with
  | EmptyString => stop
  | String c s' =>
      if in_set items c && room hi
      then max_repeat items (pred lo) (option_map pred hi) k (S pos) s' || stop
      else stop
  end.

Fixpoint sre_match (p : pattern) : nat -> string -> bool :=
  match p with
  | [] => fun _ _ => true
  | n :: p' =>
      let k := sre_match p' in
      match n with
      | AT_BEGINNING => fun pos s => (pos =? 0)%nat && k pos s
      | AT_END => fun pos s => at_end s && k pos s
      | LITERAL c => fun pos s =>
          match s with
          | EmptyString => false
          | String d s' => Ascii.eqb d c && k (S pos) s'
          end
      | IN items => fun pos s =>
          match s with
          | EmptyString => false
          | String d s' => in_set items d && k (S pos) s'
          end
      | MAX_REPEAT lo hi items => max_repeat items lo hi k
      end
  end.

(** [re.match(p, s) is not None]: the pattern matches a prefix of [s]
    starting at position 0. *)
Definition re_match (p : pattern) (s : string) : bool := sre_match p 0 s.

End Sre.

Import Sre.

(** [r'^[a-zA-Z0-9._%+-]+@[a-zA-Z0-9.-]+\.[a-zA-Z]{2,}$'] *)
Definition email_regex : pattern :=
  [ AT_BEGINNING;
    MAX_REPEAT 1 None
      [RANGE "a" "z"; RANGE "A" "Z"; RANGE "0" "9";
       CHAR "."; CHAR "_"; CHAR "%"; CHAR "+"; CHAR "-"];
    LITERAL "@";
    MAX_REPEAT 1 None
      [RANGE "a" "z"; RANGE "A" "Z"; RANGE "0" "9"; CHAR "."; CHAR "-"];
    LITERAL ".";
    MAX_REPEAT 2 None [RANGE "a" "z"; RANGE "A" "Z"];
    AT_END ].

(** [RAGApp.validate_email] *)
Definition validate_email (email : string) : bool :=
  re_match email_regex email.


(** ** Session state *)

(** ['role'] of a message: ['user'] or ['system']. *)
Inductive Role : Type := user | system.

(** [st.session_state.conversation_stage] *)
Inductive Stage : Type :=
| initial | overview | details | offer_profile | collect_email | complete.

(** The options of the two [st.radio] widgets. *)
Inductive YesNo : Type := Yes | No.

Definition Stage_eqb (a b : Stage) : bool :=
  match a, b with
  | initial, initial | overview, overview | details, details
  | offer_profile, offer_profile | collect_email, collect_email
  | complete, complete => true
  | _, _ => false
  end.

Definition YesNo_eqb (a b : YesNo) : bool :=
  match a, b with
  | Yes, Yes | No, No => true
  | _, _ => false
  end.

(** [==] on values that are a [str] or [None]. *)
Definition py_eqb (a b : option string) : bool :=
  match a, b with
  | Some x, Some y => String.eqb x y
  | None, None => true
  | _, _ => false
  end.

(** [str(v)] as an f-string formats it. *)
Definition py_str (v : option string) : string :=
  match v with
  | Some x => x
  | None => "None"
  end.

(** Truth value of a [str] and of a [list]. *)
Definition str_truthy (x : string) : bool :=
  match x with
  | EmptyString => false
  | String _ _ => true
  end.

Definition list_truthy {A : Type} (l : list A) : bool :=
  match l with
  | [] => false
  | _ :: _ => true
  end.

(** An entry of [st.session_state.messages]:
    [{"role": role, "message": message}]. *)
Record Message : Type := mkMessage { role : Role; message : option string }.

Section Controller.

(** Objects of the external libraries: an uploaded file, a chunk produced
    by the text splitter, a FAISS vector store, a retrieval chain. *)
Context {UploadedFile Document VectorStore Chain : Type}.

(** The keys of [session_defaults]. *)
Record SessionState : Type := mkSession {
  conversation : option Chain;
  chat_history : list (string * string);
  processed_pdfs : bool;
  company_overview : option string;
  conversation_stage : Stage;
  email : option string;
  messages : list Message
}.

(** [st.session_state] as a dictionary: each key is absent ([None]) or
    bound to a value. *)
Record SessionStore : Type := mkStore {
  key_conversation : option (option Chain);
  key_chat_history : option (list (string * string));
  key_processed_pdfs : option bool;
  key_company_overview : option (option string);
  key_conversation_stage : option Stage;
  key_email : option (option string);
  key_messages : option (list Message)
}.

Definition empty_store : SessionStore :=
  mkStore None None None None None None None.

Definition store_of (s : SessionState) : SessionStore :=
  mkStore (Some (conversation s)) (Some (chat_history s))
          (Some (processed_pdfs s)) (Some (company_overview s))
          (Some (conversation_stage s)) (Some (email s)) (Some (messages s)).

Definition session_defaults : SessionState :=
  {| conversation := None;
     chat_history := [];
     processed_pdfs := false;
     company_overview := None;
     conversation_stage := initial;
     email := None;
     messages := [] |}.

(** [if key not in st.session_state: st.session_state[key] = default_value] *)
Definition setdefault {A : Type} (bound : option A) (default_value : A) : A :=
  match bound with
  | Some v => v
  | None => default_value
  end.

(** [RAGApp.init_session_state] *)
Definition init_session_state (st : SessionStore) : SessionState :=
  {| conversation := setdefault (key_conversation st) (conversation session_defaults);
     chat_history := setdefault (key_chat_history st) (chat_history session_defaults);
     processed_pdfs := setdefault (key_processed_pdfs st) (processed_pdfs session_defaults);
     company_overview :=
       setdefault (key_company_overview st) (company_overview session_defaults);
     conversation_stage :=
       setdefault (key_conversation_stage st) (conversation_stage session_defaults);
     email := setdefault (key_email st) (email session_defaults);
     messages := setdefault (key_messages st) (messages session_defaults) |}.

(** Attribute assignments [st.session_state.<key> = v]. *)
Definition with_conversation (v : option Chain) (s : SessionState) : SessionState :=
  mkSession v (chat_history s) (processed_pdfs s) (company_overview s)
            (conversation_stage s) (email s) (messages s).

Definition with_chat_history (v : list (string * string)) (s : SessionState)
  : SessionState :=
  mkSession (conversation s) v (processed_pdfs s) (company_overview s)
            (conversation_stage s) (email s) (messages s).

Definition with_processed_pdfs (v : bool) (s : SessionState) : SessionState :=
  mkSession (conversation s) (chat_history s) v (company_overview s)
            (conversation_stage s) (email s) (messages s).

Definition with_company_overview (v : option string) (s : SessionState)
  : SessionState :=
  mkSession (conversation s) (chat_history s) (processed_pdfs s) v
            (conversation_stage s) (email s) (messages s).

Definition with_conversation_stage (v : Stage) (s : SessionState) : SessionState :=
  mkSession (conversation s) (chat_history s) (processed_pdfs s)
            (company_overview s) v (email s) (messages s).

Definition with_messages (v : list Message) (s : SessionState) : SessionState :=
  mkSession (conversation s) (chat_history s) (processed_pdfs s)
            (company_overview s) (conversation_stage s) (email s) v.

(** ** What one run of the script reads and emits *)

(** Values returned by the widgets during one run. A widget is read only
    when the run reaches the line that renders it. *)
Record Widgets : Type := mkWidgets {
  btn_upload_documents : bool;     (* st.button("Upload Documents") *)
  btn_company_overview : bool;     (* st.button("Company Overview") *)
  btn_ask_questions : bool;        (* st.button("Ask Questions") *)
  btn_get_profile : bool;          (* st.button("Get Profile") *)
  pdf_docs : list UploadedFile;    (* st.file_uploader(...) *)
  btn_process_pdfs : bool;         (* st.button("Process PDFs") *)
  want_more : YesNo;               (* st.radio("Would you like to know more ...") *)
  user_question : string;          (* st.text_input("Ask a question ...") *)
  btn_full_profile : bool;         (* st.button("I'd like the full company profile") *)
  email_option : YesNo;            (* st.radio("Send Company Profile") *)
  email_input : string;            (* st.text_input("Please enter your email address:") *)
  btn_confirm_email : bool         (* st.button("Confirm Email") *)
}.

(** Results of the external libraries during one run; [None] stands for a
    raised exception. [process_pdf], [get_vectorstore] and
    [get_conversation_chain] are the methods of [PDFProcessor];
    [invoke_chain c question history] is the ['answer'] of
    [c({'question': question, 'chat_history': history})]. *)
Record Libraries : Type := mkLibraries {
  process_pdf : UploadedFile -> option (list Document);
  get_vectorstore : list Document -> option VectorStore;
  get_conversation_chain : VectorStore -> option Chain;
  invoke_chain : Chain -> string -> list (string * string) -> option string
}.

Inductive Event : Type :=
| Title (text : string)                  (* st.title *)
| Header (text : string)                 (* st.header *)
| Write (value : option string)          (* st.write *)
| Success (text : string)                (* st.success *)
| Error (text : string)                  (* st.error *)
| Spinner (text : string)                (* st.spinner *)
| SidebarHeader (text : string)          (* st.sidebar.header *)
| SidebarWrite (text : string)           (* st.sidebar.write *)
| Print (text : string)                  (* print *)
| ProcessPdf (pdf : UploadedFile)
| GetVectorstore (chunks : list Document)
| GetConversationChain (vectorstore : VectorStore)
| Invoke (chain : Chain) (question : string) (history : list (string * string)).

(** ** The monad of a script run *)

(** Outcome ([None]: an exception was raised), session state reached,
    events emitted. *)
Definition Run (A : Type) : Type := option A * SessionState * list Event.

Definition App (A : Type) : Type := SessionState -> Run A.

Definition outcome {A : Type} (r : Run A) : option A := fst (fst r).
Definition state_after {A : Type} (r : Run A) : SessionState := snd (fst r).
Definition emitted {A : Type} (r : Run A) : list Event := snd r.

Definition ret {A : Type} (a : A) : App A := fun s => (Some a, s, []).

Definition bind {A B : Type} (m : App A) (f : A -> App B) : App B :=
  fun s =>
    match m s with
    | (Some a, s1, e1) =>
        match f a s1 with
        | (r, s2, e2) => (r, s2, (e1 ++ e2)%list)
        end
    | (None, s1, e1) => (None, s1, e1)
    end.

Definition raise {A : Type} : App A := fun s => (None, s, []).

Definition emit (e : Event) : App unit := fun s => (Some tt, s, [e]).

Definition gets {A : Type} (f : SessionState -> A) : App A :=
  fun s => (Some (f s), s, []).

Definition modify (f : SessionState -> SessionState) : App unit :=
  fun s => (Some tt, f s, []).

Definition when (b : bool) (m : App unit) : App unit :=
  if b then m else ret tt.

(** The result of a library call, raising when the library raised. *)
Definition returned {A : Type} (r : option A) : App A :=
  match r with
  | Some a => ret a
  | None => raise
  end.

Notation "x <- m ;; k" := (bind m (fun x => k))
  (at level 61, m at next level, right associativity).
Notation "m ;; k" := (bind m (fun _ : unit => k))
  (at level 61, right associativity).

(** [for x in l: body(x)] *)
Fixpoint for_each {A : Type} (l : list A) (body : A -> App unit) : App unit :=
  match l with
  | [] => ret tt
  | x :: l' => body x ;; for_each l' body
  end.

(** ** [PDFProcessor] *)

Definition overview_prompt : string :=
"
        Provide a concise 2-sentence overview of the company based on the uploaded documents. 
        Focus on the company's core business, main mission, or key distinguishing features.
        ".

(** [conversation(...)['answer']]: calling [None] raises, and so does a
    failing chain. *)
Definition call_chain (lib : Libraries) (chain : option Chain)
           (question : string) (history : list (string * string)) : App string :=
  match chain with
  | None => raise
  | Some c => emit (Invoke c question history) ;;
              returned (invoke_chain lib c question history)
  end.

(** [PDFProcessor.generate_company_overview] *)
Definition generate_company_overview (lib : Libraries)
           (conversation_chain : option Chain) : App string :=
  call_chain lib conversation_chain overview_prompt [].

(** [[chunk for pdf in pdf_docs for chunk in self.processor.process_pdf(pdf)]] *)
Fixpoint process_all (lib : Libraries) (pdfs : list UploadedFile)
  : App (list Document) :=
  match pdfs with
  | [] => ret []
  | pdf :: rest =>
      emit (ProcessPdf pdf) ;;
      chunks <- returned (process_pdf lib pdf) ;;
      more <- process_all lib rest ;;
      ret (chunks ++ more)%list
  end.

(** ** [RAGApp] *)

(** [RAGApp.mock_send_email] *)
Definition mock_send_email (email : string) : App bool :=
  emit (Print ("Sending company profile to " ++ email)) ;;
  ret true.

(** [RAGApp.add_message] *)
Definition add_message (role : Role) (message : option string) : App unit :=
  modify (fun s => with_messages (messages s ++ [mkMessage role message])%list s).

(** [RAGApp.display_chat_history] *)
Definition display_chat_history : App unit :=
  emit (SidebarHeader "💬 Conversation History") ;;
  msgs <- gets messages ;;
  for_each msgs (fun msg =>
    match role msg with
    | user => emit (SidebarWrite ("👤 " ++ py_str (message msg)))
    | system => emit (SidebarWrite ("🤖 " ++ py_str (message msg)))
    end).

Definition set_stage (v : Stage) : App unit :=
  modify (with_conversation_stage v).

(** [main], lines 108-120: the navigation buttons. *)
Definition navigation (w : Widgets) : App unit :=
  when (btn_upload_documents w) (set_stage initial) ;;
  processed <- gets processed_pdfs ;;
  when (processed && btn_company_overview w) (set_stage overview) ;;
  processed <- gets processed_pdfs ;;
  when (processed && btn_ask_questions w) (set_stage details) ;;
  processed <- gets processed_pdfs ;;
  when (processed && btn_get_profile w) (set_stage offer_profile).

(** [main], lines 122-141: the PDF upload stage. *)
Definition upload_stage (w : Widgets) (lib : Libraries) : App unit :=
  stage <- gets conversation_stage ;;
  when (Stage_eqb stage initial) (
    emit (Header "📄 Upload Company Documents") ;;
    when (btn_process_pdfs w && list_truthy (pdf_docs w)) (
      emit (Spinner "Processing PDFs...") ;;
      all_chunks <- process_all lib (pdf_docs w) ;;
      emit (GetVectorstore all_chunks) ;;
      vectorstore <- returned (get_vectorstore lib all_chunks) ;;
      emit (GetConversationChain vectorstore) ;;
      chain <- returned (get_conversation_chain lib vectorstore) ;;
      modify (with_conversation (Some chain)) ;;
      modify (with_processed_pdfs true) ;;
      conv <- gets conversation ;;
      answer <- generate_company_overview lib conv ;;
      modify (with_company_overview (Some answer)) ;;
      add_message system (Some "Company documents processed successfully!") ;;
      set_stage overview ;;
      emit (Success "PDFs processed successfully!"))).

(** [main], lines 145-150: the overview is shown, and logged unless some
    entry of the log already carries it. *)
Definition render_overview : App unit :=
  emit (Header "🏢 Company Overview") ;;
  text <- gets company_overview ;;
  emit (Write text) ;;
  msgs <- gets messages ;;
  text <- gets company_overview ;;
  when (negb (existsb (fun msg => py_eqb (message msg) text) msgs)) (
    text <- gets company_overview ;;
    add_message system text).

(** [main], lines 152-156 *)
Definition confirm_want_more (w : Widgets) : App unit :=
  when (YesNo_eqb (want_more w) Yes) (
    add_message user (Some "Want to know more about the company") ;;
    set_stage details).

(** [main], lines 143-156: the company overview stage. *)
Definition overview_stage (w : Widgets) : App unit :=
  processed <- gets processed_pdfs ;;
  stage <- gets conversation_stage ;;
  when (processed && Stage_eqb stage overview) (
    render_overview ;;
    confirm_want_more w).

(** [main], lines 165-183 *)
Definition ask (lib : Libraries) (user_question : string) : App unit :=
  when (str_truthy user_question) (
    add_message user (Some user_question) ;;
    conv <- gets conversation ;;
    history <- gets chat_history ;;
    bot_answer <- call_chain lib conv user_question history ;;
    add_message system (Some bot_answer) ;;
    emit (Write (Some ("🤖 Answer: " ++ bot_answer))) ;;
    modify (fun s =>
      with_chat_history (chat_history s ++ [(user_question, bot_answer)])%list s)).

(** [main], lines 158-187: the details exploration stage. *)
Definition details_stage (w : Widgets) (lib : Libraries) : App unit :=
  stage <- gets conversation_stage ;;
  when (Stage_eqb stage details) (
    emit (Header "❓ Ask Company Details") ;;
    ask lib (user_question w) ;;
    when (btn_full_profile w) (set_stage offer_profile)).

(** [main], lines 189-201: the profile offer stage. *)
Definition offer_profile_stage (w : Widgets) : App unit :=
  stage <- gets conversation_stage ;;
  when (Stage_eqb stage offer_profile) (
    emit (Header "📧 Company Profile Delivery") ;;
    emit (Write (Some "Would you like us to send the company profile to your email?")) ;;
    if YesNo_eqb (email_option w) Yes
    then add_message user (Some "Interested in receiving company profile") ;;
         set_stage collect_email
    else add_message system (Some "User declined company profile") ;;
         emit (Write (Some "Thank you for your interest!"))).

(** [main], lines 208-219 *)
Definition submit_email (email : string) : App unit :=
  if validate_email email
  then sent <- mock_send_email email ;;
       when sent (
         add_message user (Some ("Email provided: " ++ email)) ;;
         add_message system (Some ("Company profile sent to " ++ email)) ;;
         emit (Success ("Company profile sent to " ++ email ++ "!")) ;;
         set_stage complete)
  else emit (Error "Please enter a valid email address.").

(** [main], lines 203-219: the email collection stage. *)
Definition collect_email_stage (w : Widgets) : App unit :=
  stage <- gets conversation_stage ;;
  when (Stage_eqb stage collect_email) (
    emit (Header "📧 Email Collection") ;;
    when (btn_confirm_email w) (submit_email (email_input w))).

(** [main], lines 221-224: the completion stage. *)
Definition complete_stage : App unit :=
  stage <- gets conversation_stage ;;
  when (Stage_eqb stage complete) (
    emit (Write (Some "Thank you for your interest in our company!")) ;;
    add_message system (Some "Conversation completed")).

(** [RAGApp.main] *)
Definition main (w : Widgets) (lib : Libraries) : App unit :=
  emit (Title "📚 Company Profile Chatbot") ;;
  display_chat_history ;;
  navigation w ;;
  upload_stage w lib ;;
  overview_stage w ;;
  details_stage w lib ;;
  offer_profile_stage w ;;
  collect_email_stage w ;;
  complete_stage.

(** [app = RAGApp(); app.main()]: one run of the script on the session's
    store. Constructing [PDFProcessor] only reads the environment. *)
Definition app (w : Widgets) (lib : Libraries) (st : SessionStore) : Run unit :=
  main w lib (init_session_state st).

(** The session state left by one more run, raised exception or not. *)
Definition rerun (s : SessionState) (r : Widgets * Libraries) : SessionState :=
  state_after (app (fst r) (snd r) (store_of s)).

(** The session state after a sequence of runs. *)
Definition session_from (s : SessionState) (runs : list (Widgets * Libraries))
  : SessionState :=
  fold_left rerun runs s.

(** A session begins with an empty store. *)
Definition new_session : SessionState := init_session_state empty_store.

End Controller.

(** ** The e-mail grammar as the specification words it *)

Fixpoint all_chars (f : ascii -> bool) (s : string) : bool :=
  match s with
  | EmptyString => true
  | String c s' => f c && all_chars f s'
  end.

Definition between (lo hi c : ascii) : bool :=
  (nat_of_ascii lo <=? nat_of_ascii c)%nat && (nat_of_ascii c <=? nat_of_ascii hi)%nat.

Definition spec_letter (c : ascii) : bool :=
  between "A" "Z" c || between "a" "z" c.

Definition spec_digit (c : ascii) : bool := between "0" "9" c.

Definition one_of (chars : string) (c : ascii) : bool :=
  existsb (Ascii.eqb c) (list_ascii_of_string chars).

(** [[A-Za-z0-9._%+-]] *)
Definition spec_local_char (c : ascii) : bool :=
  spec_letter c || spec_digit c || one_of "._%+-" c.

(** [[A-Za-z0-9.-]] *)
Definition spec_domain_char (c : ascii) : bool :=
  spec_letter c || spec_digit c || one_of ".-" c.

(** Local part, [@], domain, a dot, a top-level domain of two or more
    letters, and nothing else. *)
Definition spec_email (s : string) : Prop :=
  exists local_part domain tld : string,
    s = local_part ++ "@" ++ domain ++ "." ++ tld /\
    1 <= String.length local_part /\ all_chars spec_local_char local_part = true /\
    1 <= String.length domain /\ all_chars spec_domain_char domain = true /\
    2 <= String.length tld /\ all_chars spec_letter tld = true.

Definition line_feed : string := String newline EmptyString.


Fixpoint last_char (s : string) : option ascii :=
  match s with
  | EmptyString => None
  | String c EmptyString => Some c
  | String _ s' => last_char s'
  end.

(** ** Observations on runs, used to state the properties *)

Section Observations.

Context {UploadedFile Document VectorStore Chain : Type}.

Local Abbreviation App := (@App UploadedFile Document VectorStore Chain).
Local Abbreviation Widgets := (@Widgets UploadedFile).
Local Abbreviation Libraries := (@Libraries UploadedFile Document VectorStore Chain).
Local Abbreviation SessionState := (@SessionState Chain).

Local Notation "m ;; k" := (bind m (fun _ : unit => k))
  (at level 61, right associativity).

(** Some navigation button takes effect in this run: "Upload Documents" is
    always rendered, the other three only once documents are processed. *)
Definition navigated (w : Widgets) (s : SessionState) : bool :=
  btn_upload_documents w
  || processed_pdfs s
     && (btn_company_overview w || btn_ask_questions w || btn_get_profile w).

(** The stage in force once the navigation buttons have been handled. *)
Definition nav_stage (w : Widgets) (s : SessionState) : Stage :=
  let st1 := if btn_upload_documents w then initial else conversation_stage s in
  let st2 := if processed_pdfs s && btn_company_overview w then overview else st1 in
  let st3 := if processed_pdfs s && btn_ask_questions w then details else st2 in
  if processed_pdfs s && btn_get_profile w then offer_profile else st3.

(** The part of [main] below the title and the sidebar. *)
Definition stages (w : Widgets) (lib : Libraries) : App unit :=
  navigation w ;;
  upload_stage w lib ;;
  overview_stage w ;;
  details_stage w lib ;;
  offer_profile_stage w ;;
  collect_email_stage w ;;
  complete_stage.

(** What the title and [display_chat_history] put on the page. *)
Definition page_top (s : SessionState)
  : list (@Event UploadedFile Document VectorStore Chain) :=
  Title "📚 Company Profile Chatbot"
  :: SidebarHeader "💬 Conversation History"
  :: map (fun msg =>
            match role msg with
            | user => SidebarWrite ("👤 " ++ py_str (message msg))
            | system => SidebarWrite ("🤖 " ++ py_str (message msg))
            end) (messages s).

(** The run [r] with the events [evs] emitted before it. *)
Definition after_events {A : Type}
           (evs : list (@Event UploadedFile Document VectorStore Chain))
           (r : Run A) : Run A :=
  (outcome r, state_after r, (evs ++ emitted r)%list).

(** The computation never changes the observation [f] of the session. *)
Definition unchanged_by {A B : Type} (f : SessionState -> B) (m : App A) : Prop :=
  forall s, f (state_after (m s)) = f s.

(** The computation only ever appends to the message log. *)
Definition appends {A : Type} (m : App A) : Prop :=
  forall s, exists added, messages (state_after (m s)) = (messages s ++ added)%list.

(** Number of log entries whose text is [text]. *)
Definition count_text (text : option string) (log : list Message) : nat :=
  List.length (filter (fun msg => py_eqb (message msg) text) log).

End Observations.

(** ** A concrete session *)

(** Stand-ins for the external libraries, with files, chunks, stores and
    chains that are plain text: a file is one chunk, the overview is the
    text of the chunks, every other answer is ["Widgets."]. *)
Module Demo.

Definition lib : @Libraries string string (list string) (list string) :=
  {| process_pdf := fun pdf => Some [pdf];
     get_vectorstore := fun chunks => Some chunks;
     get_conversation_chain := fun vectorstore => Some vectorstore;
     invoke_chain := fun chain question _ =>
       if String.eqb question overview_prompt
       then Some (String.concat " " chain)
       else Some "Widgets." |}.

(** Both radios on their first option, empty inputs, no button pressed. *)
Definition idle : @Widgets string :=
  mkWidgets false false false false [] false Yes "" false Yes "" false.

(** "Process PDFs" pressed with [files] in the uploader. *)
Definition process (files : list string) : @Widgets string :=
  mkWidgets false false false false files true Yes "" false Yes "" false.

(** A question entered in the details stage. *)
Definition question (q : string) : @Widgets string :=
  mkWidgets false false false false [] false Yes q false Yes "" false.

(** "I'd like the full company profile" pressed. *)
Definition full_profile : @Widgets string :=
  mkWidgets false false false false [] false Yes "" true Yes "" false.

(** "Confirm Email" pressed with [address] typed in. *)
Definition confirm (address : string) : @Widgets string :=
  mkWidgets false false false false [] false Yes "" false Yes address true.

(** The navigation button "Upload Documents" pressed. *)
Definition upload_documents : @Widgets string :=
  mkWidgets true false false false [] false Yes "" false Yes "" false.

(** The overview shown again with "No" selected on its radio. *)
Definition no_more : @Widgets string :=
  mkWidgets false true false false [] false No "" false Yes "" false.

Definition acme : string := "Acme Corp sells widgets.".

(** The session as the overview stage finds it right after ingestion. *)
Definition before_overview : @SessionState (list string) :=
  state_after (upload_stage (process [acme]) lib new_session).

(** After ingestion the run falls through to the details stage. *)
Definition in_details : @SessionState (list string) :=
  session_from new_session [(process [acme], lib)].

Definition in_collect_email : @SessionState (list string) :=
  session_from new_session [(process [acme], lib); (full_profile, lib)].

Definition in_complete : @SessionState (list string) :=
  session_from new_session
    [(process [acme], lib); (full_profile, lib); (confirm "user@example.com", lib)].

End Demo.


(** ** Further observations on runs *)

Section MoreObservations.

Context {UploadedFile Document VectorStore Chain : Type}.

Local Abbreviation App := (@App UploadedFile Document VectorStore Chain).
Local Abbreviation Event := (@Event UploadedFile Document VectorStore Chain).
Local Abbreviation Libraries := (@Libraries UploadedFile Document VectorStore Chain).
Local Abbreviation SessionState := (@SessionState Chain).

(** The chunks of all files, when every file is processed. *)
Fixpoint all_chunks (lib : Libraries) (pdfs : list UploadedFile)
  : option (list Document) :=
  match pdfs with
  | [] => Some []
  | pdf :: rest =>
      match process_pdf lib pdf, all_chunks lib rest with
      | Some chunks, Some more => Some (chunks ++ more)%list
      | _, _ => None
      end
  end.

(** The files handed to [process_pdf]: all up to the first that fails. *)
Fixpoint attempted (lib : Libraries) (pdfs : list UploadedFile)
  : list UploadedFile :=
  match pdfs with
  | [] => []
  | pdf :: rest =>
      pdf :: match process_pdf lib pdf with
             | Some _ => attempted lib rest
             | None => []
             end
  end.

(** The chain that the three library calls of an ingestion build. *)
Definition ingest (lib : Libraries) (pdfs : list UploadedFile) : option Chain :=
  match all_chunks lib pdfs with
  | None => None
  | Some chunks =>
      match get_vectorstore lib chunks with
      | None => None
      | Some vectorstore => get_conversation_chain lib vectorstore
      end
  end.

(** The computation keeps the property [I] of the session, also when it
    raises. *)
Definition keeps {A : Type} (I : SessionState -> Prop) (m : App A) : Prop :=
  forall s, I s -> I (state_after (m s)).

(** The computation never raises. *)
Definition succeeds {A : Type} (m : App A) : Prop :=
  forall s, outcome (m s) <> None.

(** Every event the computation emits satisfies [P]. *)
Definition emits_only {A : Type} (P : Event -> Prop) (m : App A) : Prop :=
  forall s, Forall P (emitted (m s)).

(** The exchange history is left alone or gains one pair for [question]. *)
Definition records_at_most_one {A : Type} (question : string) (m : App A) : Prop :=
  forall s,
    chat_history (state_after (m s)) = chat_history s
    \/ exists answer,
         chat_history (state_after (m s))
         = (chat_history s ++ [(question, answer)])%list.

(** None of the four navigation buttons is pressed. *)
Definition no_navigation (w : @Widgets UploadedFile) : bool :=
  negb (btn_upload_documents w || btn_company_overview w
        || btn_ask_questions w || btn_get_profile w).

Definition is_sidebar_write (e : Event) : bool :=
  match e with
  | SidebarWrite _ => true
  | _ => false
  end.

(** The sidebar line of a log entry. *)
Definition sidebar_line (msg : Message) : Event :=
  match role msg with
  | user => SidebarWrite ("👤 " ++ py_str (message msg))
  | system => SidebarWrite ("🤖 " ++ py_str (message msg))
  end.

(** The invariant of the sessions the program can reach: outside the
    upload stage documents have been processed, and processed documents
    come with a chain. *)
Definition ready (s : SessionState) : Prop :=
  (conversation_stage s <> initial -> processed_pdfs s = true) /\
  (processed_pdfs s = true -> conversation s <> None).

End MoreObservations.

(** ** Further observations on addresses *)

(** The string without its final line feed, if it ends with one. *)
Fixpoint chomp (s : string) : string :=
  match s with
  | EmptyString => EmptyString
  | String c EmptyString => if Ascii.eqb c newline then EmptyString else s
  | String c s' => String c (chomp s')
  end.

Fixpoint count_char (c : ascii) (s : string) : nat :=
  match s with
  | EmptyString => 0
  | String d s' => (if Ascii.eqb d c then 1 else 0) + count_char c s'
  end.

(** * The scraping script

    A shallow embedding of [src/scraping.py], function
    [scrape_website_to_pdf]. Text taken from the page is a list of Unicode
    code points, since the function re-encodes it character by character;
    file names, URLs and printed lines are [string]s. What the function does
    to the outside (the HTTP request, the calls on the [FPDF] object, the
    printed line) is the list of effects it returns; [requests.get],
    [raise_for_status] and [pdf.output] may raise, with the text of the
    exception. *)

Module Scraping.

Definition text : Type := list N.

Definition text_of (s : string) : text :=
  map N_of_ascii (list_ascii_of_string s).

(** [str.isspace] on one character: the code points Python counts as
    whitespace. *)
Definition isspace (c : N) : bool :=
  ((9 <=? c) && (c <=? 13) || (28 <=? c) && (c <=? 32)
   || (c =? 133) || (c =? 160) || (c =? 5760)
   || (8192 <=? c) && (c <=? 8202)
   || (c =? 8232) || (c =? 8233) || (c =? 8239) || (c =? 8287) || (c =? 12288))%N.

Fixpoint lstrip (t : text) : text :=
  match t with
  | [] => []
  | c :: t' => if isspace c then lstrip t' else t
  end.

Definition rstrip (t : text) : text := rev (lstrip (rev t)).

(** [str.strip()] *)
Definition strip (t : text) : text := rstrip (lstrip t).

(** [.encode('latin-1', 'replace').decode('latin-1')]: a character outside
    Latin-1 becomes [?]. *)
Definition latin1_replace (t : text) : text :=
  map (fun c => if (c <=? 255)%N then c else 63%N) t.

(** What the script uses of the parsed page: [soup.title] ([None] without
    a title tag) with its [.string] ([None] unless the tag holds a single
    string), and [get_text()] of each [p] tag in document order. *)
Record Soup : Type := mkSoup {
  title : option (option text);
  paragraphs : list text
}.

(** A response: [raise_for_status()] raises ([Some] the error text) or
    not, and the content as [BeautifulSoup] parses it. *)
Record Response : Type := mkResponse {
  raise_for_status : option string;
  soup : Soup
}.

(** The outside world: [requests.get] raises or responds; [pdf.output]
    raises ([Some] the error text) or writes the file. *)
Record World : Type := mkWorld {
  requests_get : string -> string + Response;
  pdf_output : string -> option string
}.

(** Calls on the [FPDF] object. *)
Inductive PdfCall : Type :=
| set_auto_page_break (auto : bool) (margin : N)
| add_page
| set_font (family style : string) (size : N)
| cell (w h : N) (txt : text) (ln : bool) (align : string)
| ln (h : N)
| multi_cell (w h : N) (txt : text)
| output (name : string).

Inductive Effect : Type :=
| HttpGet (url : string)
| Pdf (call : PdfCall)
| Printed (line : string).

(** Effects performed, then the exception raised ([inl], with its text) or
    the value ([inr]). *)
Definition Try (A : Type) : Type := list Effect * (string + A).

Definition ret {A : Type} (a : A) : Try A := ([], inr a).

Definition raise {A : Type} (e : string) : Try A := ([], inl e).

Definition perform (e : Effect) : Try unit := ([e], inr tt).

Definition bind {A B : Type} (m : Try A) (k : A -> Try B) : Try B :=
  match m with
  | (e1, inl e) => (e1, inl e)
  | (e1, inr a) => match k a with (e2, r) => ((e1 ++ e2)%list, r) end
  end.

Notation "x <- m ;; k" := (bind m (fun x => k))
  (at level 61, m at next level, right associativity).
Notation "m ;; k" := (bind m (fun _ : unit => k))
  (at level 61, right associativity).

(** [title.encode(...)], where [title] may be [None]. *)
Definition encode_title (t : option text) : Try text :=
  match t with
  | Some t => ret (latin1_replace t)
  | None => raise "'NoneType' object has no attribute 'encode'"
  end.

(** The loop over the paragraphs, lines 31-35. *)
Fixpoint add_paragraphs (paras : list text) : Try unit :=
  match paras with
  | [] => ret tt
  | para :: rest =>
      let txt := strip para in
      match txt with
      | [] => add_paragraphs rest
      | _ :: _ =>
          perform (Pdf (multi_cell 0 10 (latin1_replace txt))) ;;
          perform (Pdf (ln 5)) ;;
          add_paragraphs rest
      end
  end.

(** The body of the [try], lines 7-39. *)
Definition try_body (world : World) (url output_filename : string) : Try unit :=
  perform (HttpGet url) ;;
  response <- match requests_get world url with
              | inl e => raise e
              | inr r => ret r
              end ;;
  match raise_for_status response with
  | Some e => raise e
  | None => ret tt
  end ;;
  let title := match title (soup response) with
               | Some tag_string => tag_string
               | None => Some (text_of "No Title")
               end in
  let paragraphs := paragraphs (soup response) in
  perform (Pdf (set_auto_page_break true 15)) ;;
  perform (Pdf add_page) ;;
  perform (Pdf (set_font "Arial" "" 12)) ;;
  perform (Pdf (set_font "Arial" "B" 16)) ;;
  encoded <- encode_title title ;;
  perform (Pdf (cell 0 10 encoded true "C")) ;;
  perform (Pdf (ln 10)) ;;
  perform (Pdf (set_font "Arial" "" 12)) ;;
  add_paragraphs paragraphs ;;
  perform (Pdf (output output_filename)) ;;
  match pdf_output world output_filename with
  | Some e => raise e
  | None => ret tt
  end ;;
  perform (Printed ("Content saved to " ++ output_filename)).

(** [scrape_website_to_pdf]: every exception is caught and printed. *)
Definition scrape_website_to_pdf (world : World) (url output_filename : string)
  : list Effect :=
  match try_body world url output_filename with
  | (effects, inr _) => effects
  | (effects, inl e) => (effects ++ [Printed ("An error occurred: " ++ e)])%list
  end.

(** The texts handed to [cell] and [multi_cell], in order. *)
Definition drawn_text (e : Effect) : list text :=
  match e with
  | Pdf (cell _ _ txt _ _) => [txt]
  | Pdf (multi_cell _ _ txt) => [txt]
  | _ => []
  end.

Definition paragraph_text (e : Effect) : list text :=
  match e with
  | Pdf (multi_cell _ _ txt) => [txt]
  | _ => []
  end.

Definition is_printed (e : Effect) : bool :=
  match e with
  | Printed _ => true
  | _ => false
  end.

Definition is_output (e : Effect) : bool :=
  match e with
  | Pdf (output _) => true
  | _ => false
  end.

(** The paragraph has some text besides whitespace. *)
Definition has_text (para : text) : bool :=
  match strip para with
  | [] => false
  | _ :: _ => true
  end.

(** What one paragraph adds to the document. *)
Definition paragraph_effects (para : text) : list Effect :=
  match strip para with
  | [] => []
  | c :: t => [Pdf (multi_cell 0 10 (latin1_replace (c :: t))); Pdf (ln 5)]
  end.

(** The title that is drawn. *)
Definition shown_title (page : Soup) : text :=
  match title page with
  | Some (Some t) => t
  | _ => text_of "No Title"
  end.

(** The effects up to and including the title. *)
Definition heading (url : string) (page : Soup) : list Effect :=
  [HttpGet url;
   Pdf (set_auto_page_break true 15);
   Pdf add_page;
   Pdf (set_font "Arial" "" 12);
   Pdf (set_font "Arial" "B" 16);
   Pdf (cell 0 10 (latin1_replace (shown_title page)) true "C");
   Pdf (ln 10);
   Pdf (set_font "Arial" "" 12)].

(** The page was fetched and its title can be encoded. *)
Definition renders (world : World) (url : string) : option Soup :=
  match requests_get world url with
  | inl _ => None
  | inr r =>
      match raise_for_status r, title (soup r) with
      | Some _, _ => None
      | None, Some None => None
      | None, _ => Some (soup r)
      end
  end.

(** A page with a Japanese title, a blank paragraph and an accented one. *)
Definition sample_soup : Soup :=
  mkSoup (Some (Some [26085; 26412]%N))
         [text_of " Hello "; text_of "   "; [32; 233; 8364; 10]%N].

Definition sample_world : World :=
  mkWorld (fun _ => inr (mkResponse None sample_soup)) (fun _ => None).

End Scraping.

(** ** More concrete sessions *)

(** Libraries that can fail: the empty file cannot be processed, the chain
    built from the file ["no overview"] raises on the overview prompt, and
    every chain raises on the question ["?"]. *)
Module Samples.

Definition picky : @Libraries string string (list string) (list string) :=
  {| process_pdf := fun pdf => if String.eqb pdf "" then None else Some [pdf];
     get_vectorstore := fun chunks => Some chunks;
     get_conversation_chain := fun vectorstore => Some vectorstore;
     invoke_chain := fun chain question _ =>
       if String.eqb question overview_prompt
       then match chain with
            | ["no overview"] => None
            | _ => Some (String.concat " " chain)
            end
       else if String.eqb question "?" then None else Some "Widgets." |}.

(** Every widget set except "Process PDFs" and the uploader. *)
Definition everything_else : @Widgets string :=
  mkWidgets false true true true [] false Yes "What do you sell?" true Yes
            "user@example.com" true.

(** "No" on the profile radio, nothing pressed. *)
Definition decline : @Widgets string :=
  mkWidgets false false false false [] false Yes "" false No "" false.

(** "I'd like the full company profile" with "No" on the profile radio. *)
Definition full_profile_declined : @Widgets string :=
  mkWidgets false false false false [] false Yes "" true No "" false.

Definition in_offer : @SessionState (list string) :=
  session_from Demo.in_details [(full_profile_declined, Demo.lib)].

Definition in_overview : @SessionState (list string) :=
  session_from Demo.in_details [(Demo.no_more, Demo.lib)].

(** A store in which only two keys are bound. *)
Definition partial_store : @SessionStore (list string) :=
  mkStore None None None None (Some details) None
          (Some [mkMessage user (Some "hello")]).

End Samples.

(** ** Properties of the validator *)

Section Matcher.

Lemma app_str_assoc (a b c : string) : (a ++ b) ++ c = a ++ (b ++ c).
Proof. induction a as [|x a IH]; simpl; [reflexivity | now rewrite IH]. Qed.

Lemma app_str_empty_r (a : string) : a ++ "" = a.
Proof. induction a as [|x a IH]; simpl; [reflexivity | now rewrite IH]. Qed.

Lemma length_app_str (a b : string) :
  String.length (a ++ b) = String.length a + String.length b.
Proof. induction a as [|x a IH]; simpl; [reflexivity | now rewrite IH]. Qed.

Lemma all_chars_app (f : ascii -> bool) (a b : string) :
  all_chars f (a ++ b) = all_chars f a && all_chars f b.
Proof.
  induction a as [|x a IH]; simpl; [reflexivity |].
  now rewrite IH, andb_assoc.
Qed.

Lemma all_chars_ext (f g : ascii -> bool) (s : string) :
  (forall c, f c = g c) -> all_chars f s = all_chars g s.
Proof.
  intros E. induction s as [|x s IH]; simpl; [reflexivity |].
  now rewrite E, IH.
Qed.

(** An unbounded greedy repetition succeeds exactly when some split of the
    subject puts at least [lo] characters of the set in front of a rest
    that the continuation accepts. *)
Lemma max_repeat_unbounded items k :
  forall s lo pos,
    max_repeat items lo None k pos s = true <->
    exists pre post,
      s = pre ++ post /\ all_chars (in_set items) pre = true /\
      lo <= String.length pre /\ k (pos + String.length pre) post = true.
Proof.
  induction s as [|c s IH]; intros lo pos.
  - simpl. rewrite andb_true_iff, Nat.eqb_eq. split.
    + intros [-> Hk]. exists "", "". simpl. now rewrite Nat.add_0_r.
    + intros (pre & post & E & _ & Hlo & Hk).
      destruct pre; simpl in *; [| discriminate].
      subst post. rewrite Nat.add_0_r in Hk. split; [lia | exact Hk].
  - simpl. destruct (in_set items c) eqn:Hc; simpl.
    + rewrite orb_true_iff, andb_true_iff, Nat.eqb_eq, IH. split.
      * intros [(pre & post & -> & Hall & Hlo & Hk) | [-> Hk]].
        -- exists (String c pre), post. simpl. rewrite Hc, Hall.
           rewrite Nat.add_succ_r. repeat split; [lia | exact Hk].
        -- exists "", (String c s). simpl. rewrite Nat.add_0_r.
           repeat split; [lia | exact Hk].
      * intros (pre & post & E & Hall & Hlo & Hk).
        destruct pre as [|d pre]; simpl in *.
        -- right. subst post. rewrite Nat.add_0_r in Hk. split; [lia | exact Hk].
        -- left. injection E as -> ->. apply andb_true_iff in Hall as [_ Hall].
           exists pre, post. rewrite Nat.add_succ_r in Hk.
           repeat split; [exact Hall | lia | exact Hk].
    + rewrite andb_true_iff, Nat.eqb_eq. split.
      * intros [-> Hk]. exists "", (String c s). simpl. rewrite Nat.add_0_r.
        repeat split; [lia | exact Hk].
      * intros (pre & post & E & Hall & Hlo & Hk).
        destruct pre as [|d pre]; simpl in *.
        -- subst post. rewrite Nat.add_0_r in Hk. split; [lia | exact Hk].
        -- injection E as -> ->. rewrite Hc in Hall. discriminate.
Qed.

Lemma literal_step c p pos s :
  sre_match (LITERAL c :: p) pos s = true <->
  exists rest, s = String c rest /\ sre_match p (S pos) rest = true.
Proof.
  simpl. destruct s as [|d s].
  - split; [discriminate | intros (? & ? & _); discriminate].
  - rewrite andb_true_iff, Ascii.eqb_eq. split.
    + intros [-> H]. now exists s.
    + intros (rest & E & H). injection E as -> ->. now split.
Qed.

Lemma at_end_last pos s :
  sre_match [AT_END] pos s = true <-> s = "" \/ s = line_feed.
Proof.
  simpl. rewrite andb_true_r. unfold line_feed.
  destruct s as [|c [|d s]]; simpl.
  - split; [now left | reflexivity].
  - rewrite Ascii.eqb_eq. split.
    + intros ->. now right.
    + intros [H | H]; [discriminate | now injection H].
  - split; [discriminate | intros [H | H]; discriminate].
Qed.

Lemma local_set_spec c :
  in_set [RANGE "a" "z"; RANGE "A" "Z"; RANGE "0" "9";
          CHAR "."; CHAR "_"; CHAR "%"; CHAR "+"; CHAR "-"] c = spec_local_char c.
Proof. destruct c as [[] [] [] [] [] [] [] []]; reflexivity. Qed.

Lemma domain_set_spec c :
  in_set [RANGE "a" "z"; RANGE "A" "Z"; RANGE "0" "9"; CHAR "."; CHAR "-"] c
  = spec_domain_char c.
Proof. destruct c as [[] [] [] [] [] [] [] []]; reflexivity. Qed.

Lemma tld_set_spec c :
  in_set [RANGE "a" "z"; RANGE "A" "Z"] c = spec_letter c.
Proof. destruct c as [[] [] [] [] [] [] [] []]; reflexivity. Qed.

Lemma repeat_step items lo p pos s :
  sre_match (MAX_REPEAT lo None items :: p) pos s = true <->
  exists pre post,
    s = pre ++ post /\ all_chars (in_set items) pre = true /\
    lo <= String.length pre /\ sre_match p (pos + String.length pre) post = true.
Proof. exact (max_repeat_unbounded items (sre_match p) s lo pos). Qed.

Lemma begin_step p s : sre_match (AT_BEGINNING :: p) 0 s = sre_match p 0 s.
Proof. reflexivity. Qed.

(** The shape of every accepted string: the three parts of the grammar,
    followed by nothing or by one line feed. *)
Lemma validate_email_shape s :
  validate_email s = true <->
  exists local_part domain tld tail,
    s = local_part ++ "@" ++ domain ++ "." ++ tld ++ tail /\
    1 <= String.length local_part /\ all_chars spec_local_char local_part = true /\
    1 <= String.length domain /\ all_chars spec_domain_char domain = true /\
    2 <= String.length tld /\ all_chars spec_letter tld = true /\
    (tail = "" \/ tail = line_feed).
Proof.
  unfold validate_email, re_match, email_regex.
  rewrite begin_step, repeat_step. split.
  - intros (l & r1 & -> & Hl & Ll & H1).
    apply literal_step in H1 as (r2 & -> & H2).
    apply repeat_step in H2 as (d & r3 & -> & Hd & Ld & H3).
    apply literal_step in H3 as (r4 & -> & H4).
    apply repeat_step in H4 as (t & tail & -> & Ht & Lt & H5).
    apply at_end_last in H5.
    exists l, d, t, tail.
    rewrite (all_chars_ext _ _ _ local_set_spec) in Hl.
    rewrite (all_chars_ext _ _ _ domain_set_spec) in Hd.
    rewrite (all_chars_ext _ _ _ tld_set_spec) in Ht.
    repeat split; assumption.
  - intros (l & d & t & tail & -> & Ll & Hl & Ld & Hd & Lt & Ht & Htail).
    exists l, ("@" ++ d ++ "." ++ t ++ tail).
    rewrite (all_chars_ext _ _ _ local_set_spec).
    repeat split; [assumption .. |].
    apply literal_step. eexists; split; [reflexivity |].
    apply repeat_step. exists d, ("." ++ t ++ tail).
    rewrite (all_chars_ext _ _ _ domain_set_spec).
    repeat split; [assumption .. |].
    apply literal_step. eexists; split; [reflexivity |].
    apply repeat_step. exists t, tail.
    rewrite (all_chars_ext _ _ _ tld_set_spec).
    repeat split; [assumption .. |].
    now apply at_end_last.
Qed.

Lemma last_char_app a b : b <> "" -> last_char (a ++ b) = last_char b.
Proof.
  intros Hb. induction a as [|x a IH]; simpl; [reflexivity |].
  rewrite IH. destruct (a ++ b) eqn:E; [| reflexivity].
  destruct a; simpl in E; [contradiction | discriminate].
Qed.

Lemma last_char_all f t :
  all_chars f t = true -> 1 <= String.length t ->
  exists c, last_char t = Some c /\ f c = true.
Proof.
  induction t as [|x t IH]; simpl; [lia |].
  intros H _. apply andb_true_iff in H as [Hx Ht].
  destruct t as [|y t]; [now exists x |].
  apply IH; [exact Ht | simpl; lia].
Qed.

(** A string of the grammar ends with a letter. *)
Lemma spec_email_ends_with_letter s :
  spec_email s -> exists c, last_char s = Some c /\ spec_letter c = true.
Proof.
  intros (l & d & t & -> & _ & _ & _ & _ & Lt & Ht).
  assert (Hne : t <> "") by (destruct t; [simpl in Lt; lia | discriminate]).
  assert (E : l ++ "@" ++ d ++ "." ++ t = (l ++ "@" ++ d ++ ".") ++ t).
  { now rewrite !app_str_assoc. }
  rewrite E, last_char_app by exact Hne.
  apply last_char_all; [exact Ht | lia].
Qed.

Lemma spec_email_no_line_feed s : ~ spec_email (s ++ line_feed).
Proof.
  intros H. apply spec_email_ends_with_letter in H as (c & Hc & Hl).
  rewrite last_char_app in Hc by discriminate.
  injection Hc as <-. discriminate.
Qed.

(** What the validator accepts, against the specification's grammar. *)
Lemma validate_email_accepts s :
  validate_email s = true <->
  spec_email s \/ exists s0, s = s0 ++ line_feed /\ spec_email s0.
Proof.
  rewrite validate_email_shape. split.
  - intros (l & d & t & tail & -> & Ll & Hl & Ld & Hd & Lt & Ht & [-> | ->]).
    + left. exists l, d, t. rewrite app_str_empty_r. repeat split; assumption.
    + right. exists (l ++ "@" ++ d ++ "." ++ t). split.
      * now rewrite !app_str_assoc.
      * exists l, d, t. repeat split; assumption.
  - intros [(l & d & t & -> & H) | (s0 & -> & l & d & t & -> & H)].
    + exists l, d, t, "". rewrite app_str_empty_r. repeat split; try apply H.
      now left.
    + exists l, d, t, line_feed. rewrite !app_str_assoc.
      repeat split; try apply H. now right.
Qed.

End Matcher.

(** ** Properties of the controller *)

Section ControllerFacts.

Context {UploadedFile Document VectorStore Chain : Type}.

Local Abbreviation App := (@App UploadedFile Document VectorStore Chain).
Local Abbreviation Run := (@Run UploadedFile Document VectorStore Chain).
Local Abbreviation Event := (@Event UploadedFile Document VectorStore Chain).
Local Abbreviation Widgets := (@Widgets UploadedFile).
Local Abbreviation Libraries := (@Libraries UploadedFile Document VectorStore Chain).
Local Abbreviation SessionState := (@SessionState Chain).

Local Notation "x <- m ;; k" := (bind m (fun x => k))
  (at level 61, m at next level, right associativity).
Local Notation "m ;; k" := (bind m (fun _ : unit => k))
  (at level 61, right associativity).

Local Abbreviation unchanged_by := (@unchanged_by UploadedFile Document VectorStore Chain _ _).
Local Abbreviation appends := (@appends UploadedFile Document VectorStore Chain _).
Local Abbreviation add_message' := (@add_message UploadedFile Document VectorStore Chain).
Local Abbreviation mock_send_email' :=
  (@mock_send_email UploadedFile Document VectorStore Chain).
Local Abbreviation page_top' := (@page_top UploadedFile Document VectorStore Chain).
Local Abbreviation display_chat_history' :=
  (@display_chat_history UploadedFile Document VectorStore Chain).
Local Abbreviation render_overview' :=
  (@render_overview UploadedFile Document VectorStore Chain).

Local Abbreviation complete_stage' :=
  (@complete_stage UploadedFile Document VectorStore Chain).
Local Abbreviation after_details w :=
  (offer_profile_stage w ;; collect_email_stage w ;; complete_stage').

Local Abbreviation after_upload w lib :=
  (overview_stage w ;; details_stage w lib ;; offer_profile_stage w ;;
   collect_email_stage w ;; complete_stage').

Implicit Types (s : SessionState) (w : Widgets) (lib : Libraries).

(** *** The store *)

Lemma init_store_of s : init_session_state (store_of s) = s.
Proof. destruct s; reflexivity. Qed.

Lemma app_store_of w lib s : app w lib (store_of s) = main w lib s.
Proof. unfold app. now rewrite init_store_of. Qed.

Lemma rerun_main s w lib : rerun s (w, lib) = state_after (main w lib s).
Proof. unfold rerun. simpl. now rewrite app_store_of. Qed.

(** *** Sequencing *)

Lemma bind_run {A B : Type} (m : App A) (f : A -> App B) s a s1 e1 :
  m s = (Some a, s1, e1) ->
  bind m f s = after_events e1 (f a s1).
Proof.
  intros E. unfold bind. rewrite E. now destruct (f a s1) as [[r s2] e2].
Qed.

Lemma bind_raised {A B : Type} (m : App A) (f : A -> App B) s s1 e1 :
  m s = (None, s1, e1) -> bind m f s = (None, s1, e1).
Proof. intros E. unfold bind. now rewrite E. Qed.

Lemma state_after_bind {A B : Type} (m : App A) (f : A -> App B) s :
  state_after (bind m f s) =
  match outcome (m s) with
  | Some a => state_after (f a (state_after (m s)))
  | None => state_after (m s)
  end.
Proof.
  unfold bind, outcome, state_after.
  destruct (m s) as [[[a|] s1] e1]; simpl; [| reflexivity].
  now destruct (f a s1) as [[r s2] e2].
Qed.

Lemma outcome_bind {A B : Type} (m : App A) (f : A -> App B) s :
  outcome (bind m f s) =
  match outcome (m s) with
  | Some a => outcome (f a (state_after (m s)))
  | None => None
  end.
Proof.
  unfold bind, outcome, state_after.
  destruct (m s) as [[[a|] s1] e1]; simpl; [| reflexivity].
  now destruct (f a s1) as [[r s2] e2].
Qed.

Lemma emitted_bind {A B : Type} (m : App A) (f : A -> App B) s :
  emitted (bind m f s) =
  (emitted (m s) ++
   match outcome (m s) with
   | Some a => emitted (f a (state_after (m s)))
   | None => []
   end)%list.
Proof.
  unfold bind, outcome, state_after, emitted.
  destruct (m s) as [[[a|] s1] e1]; simpl; [| now rewrite app_nil_r].
  now destruct (f a s1) as [[r s2] e2].
Qed.

Lemma after_events_fuse {A : Type} (e1 e2 : list Event) (r : Run A) :
  after_events e1 (after_events e2 r) = after_events (e1 ++ e2) r.
Proof. unfold after_events. cbn. now rewrite app_assoc. Qed.

(** *** Observations that a computation leaves alone *)

Section Unchanged.

Context {B : Type} (f : SessionState -> B).

Lemma unchanged_ret {A : Type} (a : A) : unchanged_by f (ret a).
Proof. intros s. reflexivity. Qed.

Lemma unchanged_raise {A : Type} : unchanged_by f (@raise _ _ _ _ A).
Proof. intros s. reflexivity. Qed.

Lemma unchanged_emit (e : Event) : unchanged_by f (emit e).
Proof. intros s. reflexivity. Qed.

Lemma unchanged_gets {A : Type} (g : SessionState -> A) : unchanged_by f (gets g).
Proof. intros s. reflexivity. Qed.

Lemma unchanged_returned {A : Type} (r : option A) : unchanged_by f (returned r).
Proof. destruct r; intros s; reflexivity. Qed.

Lemma unchanged_modify (g : SessionState -> SessionState) :
  (forall s, f (g s) = f s) -> unchanged_by f (modify g).
Proof. intros H s. apply H. Qed.

Lemma unchanged_bind {A C : Type} (m : App A) (k : A -> App C) :
  unchanged_by f m -> (forall a, unchanged_by f (k a)) -> unchanged_by f (bind m k).
Proof.
  intros Hm Hk s. rewrite state_after_bind.
  destruct (outcome (m s)) as [a|]; [rewrite Hk |]; apply Hm.
Qed.

Lemma unchanged_when (b : bool) (m : App unit) :
  unchanged_by f m -> unchanged_by f (when b m).
Proof. intros H. destruct b; [exact H | apply unchanged_ret]. Qed.

Lemma unchanged_if {A : Type} (b : bool) (m1 m2 : App A) :
  unchanged_by f m1 -> unchanged_by f m2 -> unchanged_by f (if b then m1 else m2).
Proof. now destruct b. Qed.

Lemma unchanged_for_each {A : Type} (l : list A) (body : A -> App unit) :
  (forall x, unchanged_by f (body x)) -> unchanged_by f (for_each l body).
Proof.
  intros H. induction l as [|x l IH]; simpl.
  - apply unchanged_ret.
  - apply unchanged_bind; [apply H | intros _; exact IH].
Qed.

Lemma unchanged_call_chain lib c q h : unchanged_by f (call_chain lib c q h).
Proof.
  destruct c as [c|]; simpl; [| apply unchanged_raise].
  apply unchanged_bind; [apply unchanged_emit | intros _; apply unchanged_returned].
Qed.

Lemma unchanged_process_all lib pdfs : unchanged_by f (process_all lib pdfs).
Proof.
  induction pdfs as [|pdf rest IH]; simpl; [apply unchanged_ret |].
  apply unchanged_bind; [apply unchanged_emit | intros _].
  apply unchanged_bind; [apply unchanged_returned | intros chunks].
  apply unchanged_bind; [exact IH | intros more; apply unchanged_ret].
Qed.

End Unchanged.

Create HintDb unchanged discriminated.

#[local] Hint Resolve unchanged_ret unchanged_raise unchanged_emit unchanged_gets
  unchanged_returned unchanged_when unchanged_if unchanged_for_each
  unchanged_call_chain unchanged_process_all : unchanged.

(** Splits a straight-line computation into its statements and closes the
    ones that do not write the observed field. *)
Ltac unchanged_steps :=
  repeat first
    [ apply unchanged_bind; [| intro]
    | apply unchanged_when
    | apply unchanged_if
    | apply unchanged_for_each; intro
    | apply unchanged_modify; intro; reflexivity
    | solve [auto with unchanged]
    | progress unfold add_message, set_stage
    | match goal with
      | |- context [match ?x with _ => _ end] => destruct x
      end ].

Ltac unfold_stages :=
  unfold main, stages, display_chat_history, navigation, upload_stage,
    overview_stage, render_overview, confirm_want_more, details_stage, ask,
    offer_profile_stage, collect_email_stage, submit_email, mock_send_email,
    complete_stage, generate_company_overview.

(** *** The message log only grows *)

Lemma appends_unchanged {A : Type} (m : App A) :
  unchanged_by messages m -> appends m.
Proof. intros H s. exists []. now rewrite H, app_nil_r. Qed.

Lemma appends_bind {A C : Type} (m : App A) (k : A -> App C) :
  appends m -> (forall a, appends (k a)) -> appends (bind m k).
Proof.
  intros Hm Hk s. rewrite state_after_bind.
  destruct (Hm s) as [l1 E1].
  destruct (outcome (m s)) as [a|]; [| now exists l1].
  destruct (Hk a (state_after (m s))) as [l2 E2].
  exists (l1 ++ l2)%list. now rewrite E2, E1, app_assoc.
Qed.

Lemma appends_when (b : bool) (m : App unit) : appends m -> appends (when b m).
Proof.
  intros H. destruct b; [exact H |].
  apply appends_unchanged, unchanged_ret.
Qed.

Lemma appends_if {A : Type} (b : bool) (m1 m2 : App A) :
  appends m1 -> appends m2 -> appends (if b then m1 else m2).
Proof. now destruct b. Qed.

Lemma appends_add_message r text : appends (add_message' r text).
Proof. intros s. now exists [mkMessage r text]. Qed.

Ltac appends_steps :=
  repeat first
    [ apply appends_bind; [| intro]
    | apply appends_when
    | apply appends_if
    | apply appends_add_message
    | apply appends_unchanged; solve [unchanged_steps] ].

Lemma appends_main w lib : appends (main w lib).
Proof. unfold_stages. appends_steps. Qed.

Lemma appends_session (runs : list (Widgets * Libraries)) :
  forall s, exists added, messages (session_from s runs) = (messages s ++ added)%list.
Proof.
  unfold session_from.
  induction runs as [|[w lib] runs IH]; intros s; simpl.
  - exists []. now rewrite app_nil_r.
  - destruct (IH (rerun s (w, lib))) as [l2 E2].
    rewrite rerun_main in E2 |- *.
    destruct (appends_main w lib s) as [l1 E1].
    exists (l1 ++ l2)%list. now rewrite E2, E1, app_assoc.
Qed.

(** *** The title and the sidebar *)

Lemma for_each_emits {A : Type} (l : list A) (body : A -> App unit)
      (g : A -> Event) :
  (forall x s, body x s = (Some tt, s, [g x])) ->
  forall s, for_each l body s = (Some tt, s, map g l).
Proof.
  intros H. induction l as [|x l IH]; intros s; simpl; [reflexivity |].
  erewrite bind_run by apply H. now rewrite IH.
Qed.

Lemma display_chat_history_run s :
  display_chat_history' s = (Some tt, s, tl (page_top' s)).
Proof.
  unfold display_chat_history, page_top.
  erewrite bind_run by reflexivity. erewrite bind_run by reflexivity.
  erewrite for_each_emits with
    (g := fun msg : Message =>
            match role msg with
            | user => SidebarWrite ("👤 " ++ py_str (message msg))
            | system => SidebarWrite ("🤖 " ++ py_str (message msg))
            end);
    [reflexivity |].
  intros msg s0. now destruct (role msg).
Qed.

(** [main] is [stages] behind the title and the sidebar, which read the
    session state and write nothing. *)
Lemma main_stages w lib s :
  main w lib s = after_events (page_top' s) (stages w lib s).
Proof.
  unfold main. erewrite bind_run by reflexivity.
  erewrite bind_run by apply display_chat_history_run. reflexivity.
Qed.

Lemma page_top_no_invoke s c q h : ~ In (Invoke c q h) (page_top' s).
Proof.
  unfold page_top. intros [H | [H | H]]; try discriminate.
  apply in_map_iff in H as (msg & H & _). destruct (role msg); discriminate.
Qed.

Lemma navigation_idle w s :
  navigated w s = false -> navigation w s = (Some tt, s, @nil Event).
Proof.
  unfold navigated, navigation. destruct s as [c h p o st e m], w; cbn.
  intros H. apply orb_false_iff in H as [-> H].
  destruct p; cbn in *; [| reflexivity].
  apply orb_false_iff in H as [H ->]. apply orb_false_iff in H as [-> ->].
  reflexivity.
Qed.

Lemma navigation_run w s :
  navigation w s = (Some tt, with_conversation_stage (nav_stage w s) s, @nil Event).
Proof.
  unfold navigation, nav_stage.
  destruct s as [c h p o st e m], w as [b1 b2 b3 b4 ? ? ? ? ? ? ? ?]; cbn.
  destruct p, b1, b2, b3, b4; reflexivity.
Qed.

Lemma nav_stage_idle w s :
  navigated w s = false -> nav_stage w s = conversation_stage s.
Proof.
  intros H. pose proof (navigation_idle w s H) as E.
  rewrite navigation_run in E. injection E as E.
  now rewrite <- E at 2.
Qed.

(** A run without navigation, from the state-passing view. *)
Lemma stages_idle w lib s :
  navigated w s = false ->
  stages w lib s =
  (upload_stage w lib ;; overview_stage w ;; details_stage w lib ;;
   offer_profile_stage w ;; collect_email_stage w ;; complete_stage) s.
Proof.
  intros H. unfold stages. erewrite bind_run by (apply navigation_idle, H).
  match goal with |- _ = ?r => now destruct r as [[r0 s2] e2] end.
Qed.

Ltac observe :=
  rewrite ?after_events_fuse; unfold after_events;
  cbn [outcome state_after emitted fst snd].

(** Unfolds the monad and the stages all the way, leaving the tests on
    widgets and library results where they block. *)
Ltac eval_run :=
  cbv beta iota zeta delta
    [bind ret raise emit gets
     modify when returned
     upload_stage overview_stage render_overview
     confirm_want_more details_stage ask
     offer_profile_stage collect_email_stage
     submit_email mock_send_email complete_stage
     generate_company_overview call_chain
     add_message set_stage
     with_conversation with_chat_history with_processed_pdfs
     with_company_overview with_conversation_stage with_messages
     conversation chat_history processed_pdfs company_overview
     conversation_stage email messages
     Stage_eqb YesNo_eqb andb negb].

Ltac run_stages :=
  unfold upload_stage, overview_stage, render_overview, confirm_want_more,
    details_stage, ask, offer_profile_stage, collect_email_stage, submit_email,
    mock_send_email, complete_stage, generate_company_overview, call_chain,
    add_message, set_stage;
  cbn -[validate_email append].

(** A valid address confirmed in the email collection stage. *)
Lemma stages_submit_valid w lib s :
  conversation_stage s = collect_email ->
  navigated w s = false ->
  btn_confirm_email w = true ->
  validate_email (email_input w) = true ->
  stages w lib s =
  (Some tt,
   with_conversation_stage complete
     (with_messages
        (messages s ++
         [mkMessage user (Some ("Email provided: " ++ email_input w)%string);
          mkMessage system (Some ("Company profile sent to " ++ email_input w)%string);
          mkMessage system (Some "Conversation completed")])%list s),
   [Header "📧 Email Collection";
    Print ("Sending company profile to " ++ email_input w);
    Success ("Company profile sent to " ++ email_input w ++ "!");
    Write (Some "Thank you for your interest in our company!")]).
Proof.
  intros Hst Hnav Hbtn Hvalid. rewrite stages_idle by exact Hnav.
  destruct s as [c h p o st e m]. cbn in Hst. subst st.
  run_stages. rewrite Hbtn.
  destruct p; cbn -[validate_email append]; rewrite Hvalid; cbn -[append];
    rewrite <- !app_assoc; reflexivity.
Qed.

(** An address the validator rejects, confirmed in the same stage. *)
Lemma stages_submit_invalid w lib s :
  conversation_stage s = collect_email ->
  navigated w s = false ->
  btn_confirm_email w = true ->
  validate_email (email_input w) = false ->
  stages w lib s =
  (Some tt, s,
   [Header "📧 Email Collection"; Error "Please enter a valid email address."]).
Proof.
  intros Hst Hnav Hbtn Hvalid. rewrite stages_idle by exact Hnav.
  destruct s as [c h p o st e m]. cbn in Hst. subst st.
  run_stages. rewrite Hbtn.
  destruct p; cbn -[validate_email append]; rewrite Hvalid; reflexivity.
Qed.

(** A run in the completion stage with no navigation. *)
Lemma stages_complete w lib s :
  conversation_stage s = complete ->
  navigated w s = false ->
  stages w lib s =
  (Some tt,
   with_messages (messages s ++ [mkMessage system (Some "Conversation completed")])%list s,
   [Write (Some "Thank you for your interest in our company!")]).
Proof.
  intros Hst Hnav. rewrite stages_idle by exact Hnav.
  destruct s as [c h p o st e m]. cbn in Hst. subst st.
  run_stages. destruct p; reflexivity.
Qed.

Lemma unchanged_main_email w lib : unchanged_by email (main w lib).
Proof. unfold_stages. unchanged_steps. Qed.

(** No run of a session ever writes the [email] key. *)
Lemma email_never_assigned (runs : list (Widgets * Libraries)) :
  forall s, email (session_from s runs) = email s.
Proof.
  unfold session_from. induction runs as [|[w lib] runs IH]; intros s; simpl.
  - reflexivity.
  - rewrite IH, rerun_main. apply unchanged_main_email.
Qed.

(** *** The claims on the completion and email collection stages *)

(** C1, as amended. In the completion stage a run in which no navigation
    button takes effect leaves the stage at [complete]; and the run that
    enters [complete] (a valid address confirmed in the email collection
    stage) appends, after its two delivery messages, the system message
    "Conversation completed" as the last entry of the log, that text
    occurring exactly once among the entries the run appends. *)
Theorem complete_kept_without_navigation :
  (forall w lib s,
      conversation_stage s = complete ->
      navigated w s = false ->
      conversation_stage (state_after (main w lib s)) = complete) /\
  (forall w lib s,
      conversation_stage s = collect_email ->
      navigated w s = false ->
      btn_confirm_email w = true ->
      validate_email (email_input w) = true ->
      exists added,
        messages (state_after (main w lib s)) = (messages s ++ added)%list /\
        conversation_stage (state_after (main w lib s)) = complete /\
        last added (mkMessage user None) =
          mkMessage system (Some "Conversation completed") /\
        count_text (Some "Conversation completed") added = 1).
Proof.
  split.
  - intros w lib s Hst Hnav.
    rewrite main_stages.
    now rewrite stages_complete.
  - intros w lib s Hst Hnav Hbtn Hvalid.
    rewrite main_stages.
    rewrite stages_submit_valid by assumption.
    eexists. split; [reflexivity |]. repeat split.
Qed.

(** C4. An address the validator rejects, confirmed in the email collection
    stage (no navigation button pressed): the run ends normally, the whole
    session state, stage and message log included, is what it was, and the
    error "Please enter a valid email address." is displayed. *)
Theorem invalid_email_changes_nothing w lib s :
  conversation_stage s = collect_email ->
  navigated w s = false ->
  btn_confirm_email w = true ->
  validate_email (email_input w) = false ->
  outcome (main w lib s) = Some tt /\
  state_after (main w lib s) = s /\
  conversation_stage (state_after (main w lib s)) = collect_email /\
  messages (state_after (main w lib s)) = messages s /\
  In (Error "Please enter a valid email address.") (emitted (main w lib s)).
Proof.
  intros Hst Hnav Hbtn Hvalid.
  rewrite main_stages.
  rewrite stages_submit_invalid by assumption. observe.
  repeat split; try assumption.
  apply in_or_app. right. cbn. auto.
Qed.

(** C5. The message log is append-only: [add_message] puts its entry at the
    end; every run of [main], whatever the widgets and the libraries do and
    whether or not it raises, leaves a log that is the old one followed by
    the entries it added; hence over any sequence of runs the log keeps
    its entries at their positions and its length never decreases. *)
Theorem message_log_append_only :
  (forall r text s,
      messages (state_after (add_message' r text s))
      = (messages s ++ [mkMessage r text])%list) /\
  (forall w lib s, exists added,
      messages (state_after (main w lib s)) = (messages s ++ added)%list) /\
  (forall (runs : list (Widgets * Libraries)) s, exists added,
      messages (session_from s runs) = (messages s ++ added)%list) /\
  (forall (runs : list (Widgets * Libraries)) s,
      List.length (messages s) <= List.length (messages (session_from s runs))) /\
  (forall (runs : list (Widgets * Libraries)) s i msg,
      nth_error (messages s) i = Some msg ->
      nth_error (messages (session_from s runs)) i = Some msg).
Proof.
  split; [reflexivity |].
  split; [exact appends_main |].
  split; [intros runs s; apply appends_session |].
  split.
  - intros runs s. destruct (appends_session runs s) as [added ->].
    rewrite length_app. lia.
  - intros runs s i msg H. destruct (appends_session runs s) as [added ->].
    rewrite nth_error_app1; [exact H |].
    apply nth_error_Some. now rewrite H.
Qed.

(** C10. [mock_send_email] returns [True] for every address, after printing
    its line and without touching the session; so a run that confirms an
    address accepted by the validator in the email collection stage always
    takes the delivery branch (the line is printed, the success banner
    shown), ends normally and leaves the stage at [complete]. *)
Theorem delivery_stub_always_succeeds :
  (forall address s,
      mock_send_email' address s =
      (Some true, s, [Print ("Sending company profile to " ++ address) : Event])) /\
  (forall w lib s,
      conversation_stage s = collect_email ->
      navigated w s = false ->
      btn_confirm_email w = true ->
      validate_email (email_input w) = true ->
      outcome (main w lib s) = Some tt /\
      conversation_stage (state_after (main w lib s)) = complete /\
      In (Print ("Sending company profile to " ++ email_input w))
         (emitted (main w lib s)) /\
      In (Success ("Company profile sent to " ++ email_input w ++ "!"))
         (emitted (main w lib s))).
Proof.
  split; [reflexivity |].
  intros w lib s Hst Hnav Hbtn Hvalid.
  rewrite main_stages.
  rewrite stages_submit_valid by assumption. observe.
  repeat split; apply in_or_app; right; cbn -[append]; auto.
Qed.

(** *** The details stage *)

Lemma str_truthy_nonempty (x : string) : x <> "" -> str_truthy x = true.
Proof. destruct x; [contradiction | reflexivity]. Qed.

Lemma seq_run (m k : App unit) s s1 e1 :
  m s = (Some tt, s1, e1) ->
  (m ;; k) s = after_events e1 (k s1).
Proof. intros E. now rewrite (bind_run m (fun _ => k) s tt s1 e1 E). Qed.

Lemma upload_stage_skip w lib s :
  conversation_stage s <> initial -> upload_stage w lib s = (Some tt, s, @nil Event).
Proof. destruct s as [c h p o [] e m]; cbn; intros H; now try contradiction. Qed.

Lemma overview_stage_skip w s :
  conversation_stage s <> overview -> overview_stage w s = (Some tt, s, @nil Event).
Proof. destruct s as [c h [] o [] e m]; cbn; intros H; now try contradiction. Qed.

Lemma offer_profile_stage_skip w s :
  conversation_stage s <> offer_profile ->
  offer_profile_stage w s = (Some tt, s, @nil Event).
Proof. destruct s as [c h p o [] e m]; cbn; intros H; now try contradiction. Qed.

Lemma collect_email_stage_skip w s :
  conversation_stage s <> collect_email ->
  collect_email_stage w s = (Some tt, s, @nil Event).
Proof. destruct s as [c h p o [] e m]; cbn; intros H; now try contradiction. Qed.

Lemma complete_stage_skip s :
  conversation_stage s <> complete ->
  complete_stage' s = (Some tt, s, @nil Event).
Proof. destruct s as [c h p o [] e m]; cbn; intros H; now try contradiction. Qed.

(** The stages after the details stage never raise. *)
Lemma after_details_total w s :
  outcome (after_details w s) = Some tt.
Proof.
  unfold offer_profile_stage, collect_email_stage, submit_email.
  destruct s as [c h p o st e m], st, (email_option w), (btn_confirm_email w),
    (validate_email (email_input w)); reflexivity.
Qed.

Lemma after_details_appends w : appends (after_details w).
Proof. unfold_stages. appends_steps. Qed.

Lemma after_details_history w : unchanged_by chat_history (after_details w).
Proof. unfold_stages. unchanged_steps. Qed.

Lemma ask_run lib q s chain answer :
  q <> "" ->
  conversation s = Some chain ->
  invoke_chain lib chain q (chat_history s) = Some answer ->
  ask lib q s =
  (Some tt,
   with_chat_history (chat_history s ++ [(q, answer)])%list
     (with_messages
        (messages s ++ [mkMessage user (Some q); mkMessage system (Some answer)])%list
        s),
   [Invoke chain q (chat_history s); Write (Some ("🤖 Answer: " ++ answer))]).
Proof.
  intros Hq Hconv Hans. apply str_truthy_nonempty in Hq.
  destruct s as [c h p o st e m]. cbn in Hconv, Hans. subst c.
  unfold ask. rewrite Hq. eval_run. rewrite Hans.
  cbn -[append]. now rewrite <- app_assoc.
Qed.

Lemma details_stage_ask w lib s chain answer :
  conversation_stage s = details ->
  user_question w <> "" ->
  conversation s = Some chain ->
  invoke_chain lib chain (user_question w) (chat_history s) = Some answer ->
  details_stage w lib s =
  (Some tt,
   with_conversation_stage (if btn_full_profile w then offer_profile else details)
     (with_chat_history (chat_history s ++ [(user_question w, answer)])%list
        (with_messages
           (messages s ++ [mkMessage user (Some (user_question w));
                           mkMessage system (Some answer)])%list s)),
   [Header "❓ Ask Company Details";
    Invoke chain (user_question w) (chat_history s);
    Write (Some ("🤖 Answer: " ++ answer))]).
Proof.
  intros Hst Hq Hconv Hans. unfold details_stage.
  erewrite bind_run by reflexivity. rewrite Hst. cbn [Stage_eqb when].
  erewrite seq_run by reflexivity.
  erewrite seq_run by (apply ask_run; eassumption).
  destruct s as [c h p o st e m]. cbn in Hst. subst st.
  destruct (btn_full_profile w); reflexivity.
Qed.

(** A question answered in the details stage: what the run returns up to
    the entries and events that the stages after it add. *)
Lemma stages_ask w lib s chain answer :
  conversation_stage s = details ->
  navigated w s = false ->
  user_question w <> "" ->
  conversation s = Some chain ->
  invoke_chain lib chain (user_question w) (chat_history s) = Some answer ->
  exists s' rest more,
    stages w lib s =
    (Some tt, s',
     Header "❓ Ask Company Details"
     :: Invoke chain (user_question w) (chat_history s)
     :: Write (Some ("🤖 Answer: " ++ answer)) :: more) /\
    messages s' =
      (messages s ++ [mkMessage user (Some (user_question w));
                      mkMessage system (Some answer)] ++ rest)%list /\
    chat_history s' = (chat_history s ++ [(user_question w, answer)])%list /\
    (btn_full_profile w = false -> rest = [] /\ conversation_stage s' = details).
Proof.
  intros Hst Hnav Hq Hconv Hans. rewrite stages_idle by exact Hnav.
  erewrite seq_run by (apply upload_stage_skip; rewrite Hst; discriminate).
  erewrite seq_run by (apply overview_stage_skip; rewrite Hst; discriminate).
  erewrite seq_run by (apply details_stage_ask; eassumption).
  set (s1 := with_conversation_stage _ _). observe. cbn [app].
  rewrite after_details_total.
  destruct (btn_full_profile w) eqn:Hbtn.
  - destruct (after_details_appends w s1) as [rest Hrest].
    exists (state_after (after_details w s1)), rest, (emitted (after_details w s1)).
    split; [reflexivity |].
    rewrite Hrest, after_details_history. subst s1. cbn.
    rewrite <- app_assoc. repeat split; discriminate.
  - erewrite seq_run by (now apply offer_profile_stage_skip).
    erewrite seq_run by (now apply collect_email_stage_skip).
    rewrite complete_stage_skip by discriminate.
    eexists _, [], _. split; [reflexivity |]. subst s1. cbn.
    repeat split.
Qed.

(** An empty question with no button pressed. *)
Lemma stages_ask_empty w lib s :
  conversation_stage s = details ->
  navigated w s = false ->
  user_question w = "" ->
  btn_full_profile w = false ->
  stages w lib s = (Some tt, s, [Header "❓ Ask Company Details"]).
Proof.
  intros Hst Hnav Hq Hbtn. rewrite stages_idle by exact Hnav.
  destruct s as [c h p o st e m]. cbn in Hst. subst st.
  run_stages. rewrite Hq, Hbtn. destruct p; reflexivity.
Qed.

(** C7. A non-empty question entered in the details stage, with a chain in
    the session that answers it: the run ends normally; the chain was
    invoked with the question and the exchange history as it stood; the
    log gains the user entry with the question and then the system entry
    with the answer (followed by nothing when the full-profile button is
    not pressed in the same run); the exchange history gains the pair
    (question, answer) at its end; and the answer is displayed. *)
Theorem ask_records_exchange w lib s chain answer :
  conversation_stage s = details ->
  navigated w s = false ->
  user_question w <> "" ->
  conversation s = Some chain ->
  invoke_chain lib chain (user_question w) (chat_history s) = Some answer ->
  outcome (main w lib s) = Some tt /\
  In (Invoke chain (user_question w) (chat_history s)) (emitted (main w lib s)) /\
  (exists rest,
      messages (state_after (main w lib s)) =
        (messages s ++ [mkMessage user (Some (user_question w));
                        mkMessage system (Some answer)] ++ rest)%list /\
      (btn_full_profile w = false -> rest = [])) /\
  chat_history (state_after (main w lib s)) =
    (chat_history s ++ [(user_question w, answer)])%list /\
  In (Write (Some ("🤖 Answer: " ++ answer))) (emitted (main w lib s)).
Proof.
  intros Hst Hnav Hq Hconv Hans.
  destruct (stages_ask w lib s chain answer Hst Hnav Hq Hconv Hans)
    as (s' & rest & more & E & Hm & Hh & Hrest).
  rewrite main_stages, E. observe. repeat split.
  - apply in_or_app. right. cbn -[append]. auto.
  - exists rest. split; [exact Hm |]. intros H. now apply Hrest.
  - exact Hh.
  - apply in_or_app. right. cbn -[append]. auto.
Qed.

(** C8. The empty question: [ask] on [""] does nothing at all, in any
    state; and a run in the details stage whose question box is empty (no
    button pressed) ends normally, leaves the whole session state, so the
    exchange history and the message log, as it was, and invokes no chain. *)
Theorem empty_question_ignored :
  (forall lib s, ask lib "" s = (Some tt, s, @nil Event)) /\
  (forall w lib s,
      conversation_stage s = details ->
      navigated w s = false ->
      user_question w = "" ->
      btn_full_profile w = false ->
      outcome (main w lib s) = Some tt /\
      state_after (main w lib s) = s /\
      chat_history (state_after (main w lib s)) = chat_history s /\
      messages (state_after (main w lib s)) = messages s /\
      forall c q h, ~ In (Invoke c q h) (emitted (main w lib s))).
Proof.
  split; [reflexivity |].
  intros w lib s Hst Hnav Hq Hbtn.
  rewrite main_stages, stages_ask_empty by assumption. observe.
  repeat split. intros c q h H.
  apply in_app_or in H as [H | [H | []]]; [| discriminate].
  exact (page_top_no_invoke s c q h H).
Qed.

(** *** The overview stage *)

Lemma py_eqb_refl (v : option string) : py_eqb v v = true.
Proof. destruct v; [apply String.eqb_refl | reflexivity]. Qed.

Lemma count_text_app text (l1 l2 : list Message) :
  count_text text (l1 ++ l2) = count_text text l1 + count_text text l2.
Proof. unfold count_text. now rewrite filter_app, length_app. Qed.

Lemma render_overview_run s :
  render_overview' s =
  (Some tt,
   if existsb (fun msg => py_eqb (message msg) (company_overview s)) (messages s)
   then s
   else with_messages (messages s ++ [mkMessage system (company_overview s)])%list s,
   [Header "🏢 Company Overview"; Write (company_overview s)]).
Proof.
  destruct s as [c h p o st e m]. unfold render_overview. eval_run.
  cbn [conversation company_overview messages].
  now destruct (existsb _ m).
Qed.

(** Once shown, the overview is in the log. *)
Lemma overview_logged_after s :
  existsb (fun msg => py_eqb (message msg) (company_overview s))
          (messages (state_after (render_overview' s))) = true.
Proof.
  rewrite render_overview_run. observe.
  destruct (existsb _ (messages s)) eqn:E; [exact E |].
  cbn [messages with_messages]. rewrite existsb_app. cbn.
  now rewrite py_eqb_refl, orb_true_r.
Qed.

Lemma render_overview_noop s :
  existsb (fun msg => py_eqb (message msg) (company_overview s)) (messages s) = true ->
  state_after (render_overview' s) = s.
Proof. intros H. rewrite render_overview_run. observe. now rewrite H. Qed.

Lemma render_overview_keeps s :
  company_overview (state_after (render_overview' s)) = company_overview s.
Proof.
  rewrite render_overview_run. observe. now destruct (existsb _ (messages s)).
Qed.

Lemma render_overview_stage s :
  conversation_stage (state_after (render_overview' s)) = conversation_stage s.
Proof.
  rewrite render_overview_run. observe. now destruct (existsb _ (messages s)).
Qed.

Lemma details_stage_skip w lib s :
  conversation_stage s <> details -> details_stage w lib s = (Some tt, s, @nil Event).
Proof. destruct s as [c h p o [] e m]; cbn; intros H; now try contradiction. Qed.

(** The overview stage with "No" on its radio is [render_overview]. *)
Lemma overview_stage_no w s :
  conversation_stage s = overview ->
  processed_pdfs s = true ->
  want_more w = No ->
  overview_stage w s =
  (Some tt, state_after (render_overview' s), emitted (render_overview' s)).
Proof.
  intros Hst Hp Hno. unfold overview_stage, confirm_want_more.
  erewrite bind_run by reflexivity. erewrite bind_run by reflexivity.
  rewrite Hst, Hp, Hno. cbn [andb Stage_eqb YesNo_eqb when].
  erewrite seq_run by apply render_overview_run.
  rewrite render_overview_run. observe. now rewrite app_nil_r.
Qed.

Lemma stages_overview_no w lib s :
  nav_stage w s = overview ->
  processed_pdfs s = true ->
  want_more w = No ->
  messages (state_after (stages w lib s)) = messages (state_after (render_overview' s)).
Proof.
  intros Hnav Hp Hno. unfold stages.
  erewrite seq_run by apply navigation_run. rewrite Hnav.
  set (s0 := with_conversation_stage overview s).
  assert (Hst : conversation_stage (state_after (render_overview' s0)) = overview)
    by now rewrite render_overview_stage.
  erewrite seq_run by (now apply upload_stage_skip).
  erewrite seq_run by (apply overview_stage_no; [reflexivity | exact Hp | exact Hno]).
  erewrite seq_run by (apply details_stage_skip; rewrite Hst; discriminate).
  erewrite seq_run by (apply offer_profile_stage_skip; rewrite Hst; discriminate).
  erewrite seq_run by (apply collect_email_stage_skip; rewrite Hst; discriminate).
  rewrite complete_stage_skip by (rewrite Hst; discriminate).
  observe. rewrite !render_overview_run. observe. subst s0.
  destruct s as [c h p o st e m].
  cbn [company_overview messages with_conversation_stage].
  now destruct (existsb _ m).
Qed.

(** C6. [render_overview] appends the overview, as a system entry, exactly
    when no entry of the log carries that text, and touches nothing else.
    Hence showing it a second time changes nothing, also when other
    entries were appended in between; over two calls the number of entries
    with that text grows by one at most; and a run of [main] that shows
    the overview with "No" on the radio changes the log as
    [render_overview] does. *)
Theorem overview_logged_at_most_once s :
  let text := company_overview s in
  let logged := existsb (fun msg => py_eqb (message msg) text) (messages s) in
  let s1 := state_after (render_overview' s) in
  s1 = (if logged then s
        else with_messages (messages s ++ [mkMessage system text])%list s) /\
  state_after (render_overview' s1) = s1 /\
  (forall s2 extra,
      company_overview s2 = text ->
      messages s2 = (messages s1 ++ extra)%list ->
      state_after (render_overview' s2) = s2) /\
  count_text text (messages (state_after (render_overview' s1)))
    <= count_text text (messages s) + 1 /\
  (forall w lib,
      nav_stage w s = overview ->
      processed_pdfs s = true ->
      want_more w = No ->
      messages (state_after (main w lib s)) = messages s1).
Proof.
  cbn zeta. split; [now rewrite render_overview_run |].
  assert (Hidem : state_after (render_overview' (state_after (render_overview' s)))
                  = state_after (render_overview' s)).
  { apply render_overview_noop. rewrite render_overview_keeps.
    apply overview_logged_after. }
  split; [exact Hidem |]. split; [| split].
  - intros s2 extra Ho Hm. apply render_overview_noop.
    rewrite Ho, Hm, existsb_app, overview_logged_after. reflexivity.
  - rewrite Hidem, render_overview_run. observe.
    destruct (existsb _ (messages s)); [lia |].
    cbn [messages with_messages]. rewrite count_text_app.
    unfold count_text at 2. cbn. rewrite py_eqb_refl. cbn. lia.
  - intros w lib Hnav Hp Hno. rewrite main_stages. observe.
    now apply stages_overview_no.
Qed.

(** *** The upload stage *)

Lemma process_all_state lib pdfs s : state_after (process_all lib pdfs s) = s.
Proof. exact (unchanged_process_all (fun s0 => s0) lib pdfs s). Qed.

Ltac step :=
  first [ erewrite seq_run by reflexivity
        | erewrite bind_run by reflexivity
        | erewrite bind_raised by reflexivity ];
  cbv beta.

(** The upload stage either leaves the overview as it is, or ran a whole
    ingestion and stored the chain's answer to the overview prompt. *)
Lemma upload_stage_cases w lib s :
  company_overview (state_after (upload_stage w lib s)) = company_overview s
  \/ (conversation_stage s = initial /\ btn_process_pdfs w = true /\
      pdf_docs w <> [] /\
      exists chain answer before,
        invoke_chain lib chain overview_prompt [] = Some answer /\
        upload_stage w lib s =
        (Some tt,
         with_conversation_stage overview
           (with_messages
              (messages s ++
               [mkMessage system (Some "Company documents processed successfully!")])%list
              (with_company_overview (Some answer)
                 (with_processed_pdfs true (with_conversation (Some chain) s)))),
         (before ++ [Invoke chain overview_prompt [];
                     Success "PDFs processed successfully!"])%list)).
Proof.
  destruct (conversation_stage s) eqn:Hst;
    try (left; rewrite upload_stage_skip by (rewrite Hst; discriminate);
         reflexivity).
  unfold upload_stage. step. rewrite Hst. cbn [Stage_eqb when]. step.
  destruct (btn_process_pdfs w); [| now left].
  destruct (pdf_docs w) as [|pdf pdfs] eqn:Hdocs; [now left |].
  cbn [andb list_truthy when]. step.
  pose proof (process_all_state lib (pdf :: pdfs) s) as Hs.
  destruct (process_all lib (pdf :: pdfs) s) as [[[chunks|] s1] e1] eqn:E;
    cbn in Hs; subst s1.
  2:{ left. erewrite bind_raised by exact E. reflexivity. }
  erewrite bind_run by exact E. cbv beta. step.
  destruct (get_vectorstore lib chunks) as [vs|]; [| left; step; reflexivity].
  step. step.
  destruct (get_conversation_chain lib vs) as [chain|]; [| left; step; reflexivity].
  step. step. step. step. unfold generate_company_overview, call_chain.
  cbn [conversation with_processed_pdfs with_conversation].
  destruct (invoke_chain lib chain overview_prompt []) as [answer|] eqn:Hans.
  2:{ left. step. reflexivity. }
  right. repeat split; [discriminate |].
  exists chain, answer,
    ([Header "📄 Upload Company Documents"; Spinner "Processing PDFs..."]
       ++ e1 ++ [GetVectorstore chunks; GetConversationChain vs])%list.
  split; [exact Hans |].
  step. unfold add_message, set_stage. step. step. step.
  observe. f_equal. rewrite ?app_nil_r, <- ?app_assoc. reflexivity.
Qed.

(** Nothing below the upload stage writes the chain, the processed flag
    or the overview. *)
Lemma after_upload_keeps w lib :
  unchanged_by (fun s => (conversation s, processed_pdfs s, company_overview s))
               (after_upload w lib).
Proof. unfold_stages. unchanged_steps. Qed.

Lemma stages_overview_cases w lib s :
  company_overview (state_after (stages w lib s)) = company_overview s
  \/ (nav_stage w s = initial /\ btn_process_pdfs w = true /\ pdf_docs w <> [] /\
      exists chain answer,
        invoke_chain lib chain overview_prompt [] = Some answer /\
        In (Invoke chain overview_prompt []) (emitted (stages w lib s)) /\
        conversation (state_after (stages w lib s)) = Some chain /\
        processed_pdfs (state_after (stages w lib s)) = true /\
        company_overview (state_after (stages w lib s)) = Some answer).
Proof.
  unfold stages. erewrite seq_run by apply navigation_run.
  set (s0 := with_conversation_stage (nav_stage w s) s).
  change (company_overview s) with (company_overview s0).
  change (nav_stage w s) with (conversation_stage s0).
  destruct (upload_stage_cases w lib s0)
    as [Hkeep | (Hst & Hbtn & Hdocs & chain & answer & before & Hans & E)].
  - left. observe. rewrite state_after_bind.
    destruct (outcome (upload_stage w lib s0)); [| exact Hkeep].
    pose proof (after_upload_keeps w lib (state_after (upload_stage w lib s0))) as H.
    injection H as _ _ H. now rewrite H.
  - right. repeat split; try assumption. exists chain, answer.
    split; [exact Hans |]. erewrite seq_run by exact E.
    match goal with |- context [after_upload w lib ?st] => set (s1 := st) end.
    pose proof (after_upload_keeps w lib s1) as H. injection H as H1 H2 H3.
    observe. rewrite H1, H2, H3. repeat split.
    rewrite <- !app_assoc. apply in_or_app. right.
    apply in_or_app. right. cbn. auto.
Qed.

Lemma unchanged_main_overview w lib s :
  btn_process_pdfs w = false ->
  company_overview (state_after (main w lib s)) = company_overview s.
Proof.
  intros Hbtn. rewrite main_stages. observe.
  destruct (stages_overview_cases w lib s) as [H | (_ & H & _)]; [exact H |].
  rewrite Hbtn in H. discriminate.
Qed.

(** C9, as amended. A run changes the overview only by a whole ingestion:
    the stage in force after the navigation buttons is [initial], "Process
    PDFs" is pressed with at least one file, the chain was built and was
    asked the overview prompt with an empty history, and its answer is the
    new overview, stored with the chain and the processed flag. Every other
    run, and so every sequence of runs in which "Process PDFs" is never
    pressed, leaves the overview as it was. *)
Theorem overview_assigned_by_ingestion_only :
  (forall w lib s,
      company_overview (state_after (main w lib s)) = company_overview s
      \/ (nav_stage w s = initial /\ btn_process_pdfs w = true /\
          pdf_docs w <> [] /\
          exists chain answer,
            invoke_chain lib chain overview_prompt [] = Some answer /\
            In (Invoke chain overview_prompt []) (emitted (main w lib s)) /\
            conversation (state_after (main w lib s)) = Some chain /\
            processed_pdfs (state_after (main w lib s)) = true /\
            company_overview (state_after (main w lib s)) = Some answer)) /\
  (forall (runs : list (Widgets * Libraries)) s,
      Forall (fun r => btn_process_pdfs (fst r) = false) runs ->
      company_overview (session_from s runs) = company_overview s).
Proof.
  split.
  - intros w lib s. rewrite main_stages. observe.
    destruct (stages_overview_cases w lib s)
      as [H | (Hst & Hbtn & Hdocs & chain & answer & Hans & Hin & H)];
      [now left | right].
    repeat split; try assumption. exists chain, answer.
    split; [exact Hans |]. split; [| exact H].
    apply in_or_app. now right.
  - unfold session_from. induction runs as [|[w lib] runs IH]; intros s Hall.
    + reflexivity.
    + inversion Hall as [|r rs Hw Hrs]; subst. cbn [fold_left].
      rewrite IH by exact Hrs. rewrite rerun_main.
      now apply unchanged_main_overview.
Qed.

End ControllerFacts.

(** ** The validator on concrete addresses *)

Example validate_email_examples :
  validate_email "user@example.com" = true /\
  validate_email "a.b+c@sub.domain.io" = true /\
  validate_email "not-an-email" = false /\
  validate_email "a@b.c" = false.
Proof. repeat split. Qed.

Lemma validate_false_not_spec s : validate_email s = false -> ~ spec_email s.
Proof.
  intros H Hs. assert (E : validate_email s = true).
  { apply validate_email_accepts. now left. }
  rewrite H in E. discriminate.
Qed.

(** On the four addresses of the specification the grammar and the validator
    agree. *)
Example spec_email_examples :
  spec_email "user@example.com" /\ spec_email "a.b+c@sub.domain.io" /\
  ~ spec_email "not-an-email" /\ ~ spec_email "a@b.c".
Proof.
  repeat split.
  - exists "user", "example", "com". repeat split; cbn; lia.
  - exists "a.b+c", "sub.domain", "io". repeat split; cbn; lia.
  - now apply validate_false_not_spec.
  - now apply validate_false_not_spec.
Qed.

(** C3. The validator does not accept exactly the strings of the grammar:
    [$] also matches before a final line feed, so an address of the grammar
    followed by one line feed, such as "user@example.com" and a line feed,
    is accepted although it is not a string of the grammar. *)
Theorem validator_accepts_trailing_line_feed :
  validate_email ("user@example.com" ++ line_feed) = true /\
  ~ spec_email ("user@example.com" ++ line_feed) /\
  (forall s, spec_email s ->
             validate_email (s ++ line_feed) = true /\ ~ spec_email (s ++ line_feed)).
Proof.
  split; [reflexivity |]. split; [apply spec_email_no_line_feed |].
  intros s Hs. split; [| apply spec_email_no_line_feed].
  apply validate_email_accepts. right. now exists s.
Qed.

(** ** The claims on concrete sessions *)

(** C2. A session brought to the email collection stage, then "Confirm
    Email" with "user@example.com": the run appends the two delivery
    messages (and the completion message) and moves to [complete], but the
    session's [email] key still holds [None]; no sequence of runs, on any
    input, ever binds it to anything else. *)
Theorem valid_email_not_recorded :
  (let s := Demo.in_collect_email in
   let r := main (Demo.confirm "user@example.com") Demo.lib s in
   conversation_stage s = collect_email /\
   validate_email "user@example.com" = true /\
   outcome r = Some tt /\
   messages (state_after r) =
     (messages s ++
      [mkMessage user (Some "Email provided: user@example.com");
       mkMessage system (Some "Company profile sent to user@example.com");
       mkMessage system (Some "Conversation completed")])%list /\
   conversation_stage (state_after r) = complete /\
   email (state_after r) = None) /\
  (forall (UploadedFile Document VectorStore Chain : Type)
          (runs : list (@Widgets UploadedFile
                        * @Libraries UploadedFile Document VectorStore Chain)),
      email (session_from new_session runs) = None).
Proof.
  split; [vm_compute; repeat split |].
  intros U D V C runs. now rewrite email_never_assigned.
Qed.

(** C1, counterexample: in the completion stage the navigation button
    "Upload Documents" sets the stage back to [initial]. *)
Lemma complete_left_by_navigation :
  conversation_stage Demo.in_complete = complete /\
  conversation_stage
    (state_after (main Demo.upload_documents Demo.lib Demo.in_complete)) = initial /\
  ~ (forall (w : @Widgets string)
            (lib : @Libraries string string (list string) (list string))
            (s : @SessionState (list string)),
        conversation_stage s = complete ->
        conversation_stage (state_after (main w lib s)) = complete).
Proof.
  split; [reflexivity |]. split; [reflexivity |].
  intros H.
  specialize (H Demo.upload_documents Demo.lib Demo.in_complete eq_refl).
  vm_compute in H. discriminate.
Qed.

(** C9, counterexample: back in the upload stage through "Upload
    Documents", a second ingestion assigns the overview again. *)
Lemma overview_reassigned :
  company_overview Demo.in_details = Some "Acme Corp sells widgets." /\
  company_overview
    (session_from Demo.in_details
       [(Demo.upload_documents, Demo.lib);
        (Demo.process ["Acme Corp sells gadgets."], Demo.lib)])
  = Some "Acme Corp sells gadgets.".
Proof. split; reflexivity. Qed.

(** ** The theorems at work on the concrete session *)

Lemma complete_kept_without_navigation_witness :
  (conversation_stage Demo.in_complete = complete /\
   navigated Demo.idle Demo.in_complete = false /\
   conversation_stage (state_after (main Demo.idle Demo.lib Demo.in_complete))
   = complete) /\
  (conversation_stage Demo.in_collect_email = collect_email /\
   navigated (Demo.confirm "user@example.com") Demo.in_collect_email = false /\
   btn_confirm_email (Demo.confirm "user@example.com") = true /\
   validate_email (email_input (Demo.confirm "user@example.com")) = true /\
   exists added,
     messages (state_after (main (Demo.confirm "user@example.com") Demo.lib
                                 Demo.in_collect_email))
     = (messages Demo.in_collect_email ++ added)%list /\
     conversation_stage
       (state_after (main (Demo.confirm "user@example.com") Demo.lib
                          Demo.in_collect_email)) = complete /\
     last added (mkMessage user None) = mkMessage system (Some "Conversation completed") /\
     count_text (Some "Conversation completed") added = 1).
Proof.
  split.
  - split; [reflexivity |]. split; [reflexivity |].
    apply (proj1 complete_kept_without_navigation); reflexivity.
  - split; [reflexivity |]. split; [reflexivity |].
    split; [reflexivity |]. split; [reflexivity |].
    apply (proj2 complete_kept_without_navigation); reflexivity.
Defined.

Lemma invalid_email_changes_nothing_witness :
  conversation_stage Demo.in_collect_email = collect_email /\
  navigated (Demo.confirm "bad-email") Demo.in_collect_email = false /\
  btn_confirm_email (Demo.confirm "bad-email") = true /\
  validate_email (email_input (Demo.confirm "bad-email")) = false /\
  outcome (main (Demo.confirm "bad-email") Demo.lib Demo.in_collect_email) = Some tt /\
  state_after (main (Demo.confirm "bad-email") Demo.lib Demo.in_collect_email)
  = Demo.in_collect_email /\
  conversation_stage
    (state_after (main (Demo.confirm "bad-email") Demo.lib Demo.in_collect_email))
  = collect_email /\
  messages (state_after (main (Demo.confirm "bad-email") Demo.lib Demo.in_collect_email))
  = messages Demo.in_collect_email /\
  In (Error "Please enter a valid email address.")
     (emitted (main (Demo.confirm "bad-email") Demo.lib Demo.in_collect_email)).
Proof.
  split; [reflexivity |]. split; [reflexivity |].
  split; [reflexivity |]. split; [reflexivity |].
  apply invalid_email_changes_nothing; reflexivity.
Defined.

Lemma message_log_append_only_witness :
  nth_error (messages Demo.in_details) 1
  = Some (mkMessage system (Some "Acme Corp sells widgets.")) /\
  nth_error
    (messages (session_from Demo.in_details
                 [(Demo.question "What do you sell?", Demo.lib);
                  (Demo.full_profile, Demo.lib)])) 1
  = Some (mkMessage system (Some "Acme Corp sells widgets.")).
Proof.
  split; [reflexivity |].
  apply (proj2 (proj2 (proj2 (proj2 message_log_append_only)))). reflexivity.
Defined.

Lemma overview_logged_at_most_once_witness :
  (company_overview Demo.in_details = company_overview Demo.before_overview /\
   messages Demo.in_details
   = (messages (state_after (@render_overview string string (list string) (list string) Demo.before_overview))
      ++ [mkMessage user (Some "Want to know more about the company")])%list /\
   state_after (@render_overview string string (list string) (list string) Demo.in_details) = Demo.in_details) /\
  (nav_stage Demo.no_more Demo.in_details = overview /\
   processed_pdfs Demo.in_details = true /\
   want_more Demo.no_more = No /\
   messages (state_after (main Demo.no_more Demo.lib Demo.in_details))
   = messages (state_after (@render_overview string string (list string) (list string) Demo.in_details))).
Proof.
  split.
  - split; [reflexivity |]. split; [reflexivity |].
    destruct (overview_logged_at_most_once
                (UploadedFile := string) (Document := string)
                (VectorStore := list string) Demo.before_overview)
      as (_ & _ & H & _ & _).
    apply (H Demo.in_details
             [mkMessage user (Some "Want to know more about the company")]);
      reflexivity.
  - split; [reflexivity |]. split; [reflexivity |]. split; [reflexivity |].
    destruct (overview_logged_at_most_once
                (UploadedFile := string) (Document := string)
                (VectorStore := list string) Demo.in_details)
      as (_ & _ & _ & _ & H).
    apply H; reflexivity.
Defined.

Lemma ask_records_exchange_witness :
  conversation_stage Demo.in_details = details /\
  navigated (Demo.question "What do you sell?") Demo.in_details = false /\
  user_question (Demo.question "What do you sell?") <> "" /\
  conversation Demo.in_details = Some [Demo.acme] /\
  invoke_chain Demo.lib [Demo.acme] "What do you sell?" [] = Some "Widgets." /\
  outcome (main (Demo.question "What do you sell?") Demo.lib Demo.in_details) = Some tt /\
  In (Invoke [Demo.acme] "What do you sell?" [])
     (emitted (main (Demo.question "What do you sell?") Demo.lib Demo.in_details)) /\
  (exists rest,
      messages (state_after (main (Demo.question "What do you sell?") Demo.lib
                                  Demo.in_details))
      = (messages Demo.in_details
         ++ [mkMessage user (Some "What do you sell?");
             mkMessage system (Some "Widgets.")] ++ rest)%list /\
      (btn_full_profile (Demo.question "What do you sell?") = false -> rest = [])) /\
  chat_history (state_after (main (Demo.question "What do you sell?") Demo.lib
                                  Demo.in_details))
  = [("What do you sell?", "Widgets.")] /\
  In (Write (Some "🤖 Answer: Widgets."))
     (emitted (main (Demo.question "What do you sell?") Demo.lib Demo.in_details)).
Proof.
  split; [reflexivity |]. split; [reflexivity |]. split; [discriminate |].
  split; [reflexivity |]. split; [reflexivity |].
  apply (ask_records_exchange (Demo.question "What do you sell?") Demo.lib
           Demo.in_details [Demo.acme] "Widgets.");
    solve [reflexivity | discriminate].
Defined.

Lemma empty_question_ignored_witness :
  conversation_stage Demo.in_details = details /\
  navigated Demo.idle Demo.in_details = false /\
  user_question Demo.idle = "" /\
  btn_full_profile Demo.idle = false /\
  outcome (main Demo.idle Demo.lib Demo.in_details) = Some tt /\
  state_after (main Demo.idle Demo.lib Demo.in_details) = Demo.in_details /\
  chat_history (state_after (main Demo.idle Demo.lib Demo.in_details))
  = chat_history Demo.in_details /\
  messages (state_after (main Demo.idle Demo.lib Demo.in_details))
  = messages Demo.in_details /\
  (forall c q h, ~ In (Invoke c q h) (emitted (main Demo.idle Demo.lib Demo.in_details))).
Proof.
  split; [reflexivity |]. split; [reflexivity |].
  split; [reflexivity |]. split; [reflexivity |].
  apply (proj2 empty_question_ignored); reflexivity.
Defined.

Lemma overview_assigned_by_ingestion_only_witness :
  Forall (fun r : @Widgets string * @Libraries string string (list string) (list string) =>
            btn_process_pdfs (fst r) = false)
         [(Demo.question "What do you sell?", Demo.lib); (Demo.upload_documents, Demo.lib);
          (Demo.idle, Demo.lib)] /\
  company_overview
    (session_from Demo.in_details
       [(Demo.question "What do you sell?", Demo.lib); (Demo.upload_documents, Demo.lib);
        (Demo.idle, Demo.lib)])
  = company_overview Demo.in_details.
Proof.
  split; [repeat constructor |].
  apply (proj2 overview_assigned_by_ingestion_only). repeat constructor.
Defined.

Lemma delivery_stub_always_succeeds_witness :
  conversation_stage Demo.in_collect_email = collect_email /\
  navigated (Demo.confirm "user@example.com") Demo.in_collect_email = false /\
  btn_confirm_email (Demo.confirm "user@example.com") = true /\
  validate_email (email_input (Demo.confirm "user@example.com")) = true /\
  outcome (main (Demo.confirm "user@example.com") Demo.lib Demo.in_collect_email)
  = Some tt /\
  conversation_stage
    (state_after (main (Demo.confirm "user@example.com") Demo.lib Demo.in_collect_email))
  = complete /\
  In (Print "Sending company profile to user@example.com")
     (emitted (main (Demo.confirm "user@example.com") Demo.lib Demo.in_collect_email)) /\
  In (Success "Company profile sent to user@example.com!")
     (emitted (main (Demo.confirm "user@example.com") Demo.lib Demo.in_collect_email)).
Proof.
  split; [reflexivity |]. split; [reflexivity |].
  split; [reflexivity |]. split; [reflexivity |].
  apply (proj2 delivery_stub_always_succeeds); reflexivity.
Defined.

(** ** More on the controller: ingestion, failures, invariants *)

Section MoreControllerFacts.

Context {UploadedFile Document VectorStore Chain : Type}.

Local Abbreviation App := (@App UploadedFile Document VectorStore Chain).
Local Abbreviation Run := (@Run UploadedFile Document VectorStore Chain).
Local Abbreviation Event := (@Event UploadedFile Document VectorStore Chain).
Local Abbreviation Widgets := (@Widgets UploadedFile).
Local Abbreviation Libraries := (@Libraries UploadedFile Document VectorStore Chain).
Local Abbreviation SessionState := (@SessionState Chain).
Local Abbreviation SessionStore := (@SessionStore Chain).

Local Notation "x <- m ;; k" := (bind m (fun x => k))
  (at level 61, m at next level, right associativity).
Local Notation "m ;; k" := (bind m (fun _ : unit => k))
  (at level 61, right associativity).

Local Abbreviation unchanged_by := (@unchanged_by UploadedFile Document VectorStore Chain _ _).
Local Abbreviation keeps := (@keeps UploadedFile Document VectorStore Chain _).
Local Abbreviation succeeds := (@succeeds UploadedFile Document VectorStore Chain _).
Local Abbreviation emits_only := (@emits_only UploadedFile Document VectorStore Chain _).
Local Abbreviation records_at_most_one :=
  (@records_at_most_one UploadedFile Document VectorStore Chain _).
Local Abbreviation appends := (@appends UploadedFile Document VectorStore Chain _).
Local Abbreviation render_overview' :=
  (@render_overview UploadedFile Document VectorStore Chain).
Local Abbreviation overview_stage' :=
  (@overview_stage UploadedFile Document VectorStore Chain).
Local Abbreviation page_top' := (@page_top UploadedFile Document VectorStore Chain).
Local Abbreviation complete_stage' :=
  (@complete_stage UploadedFile Document VectorStore Chain).
Local Abbreviation after_upload w lib :=
  (overview_stage w ;; details_stage w lib ;; offer_profile_stage w ;;
   collect_email_stage w ;; complete_stage').
Local Abbreviation after_overview w lib :=
  (details_stage w lib ;; offer_profile_stage w ;;
   collect_email_stage w ;; complete_stage').
Local Abbreviation after_details w :=
  (offer_profile_stage w ;; collect_email_stage w ;; complete_stage').

Implicit Types (s : SessionState) (w : Widgets) (lib : Libraries).

Ltac unchanged_steps :=
  repeat first
    [ apply unchanged_bind; [| intro]
    | apply unchanged_when
    | apply unchanged_if
    | apply unchanged_for_each; intro
    | apply unchanged_modify; intro; reflexivity
    | apply unchanged_ret
    | apply unchanged_raise
    | apply unchanged_emit
    | apply unchanged_gets
    | apply unchanged_returned
    | apply unchanged_call_chain
    | apply unchanged_process_all
    | progress unfold add_message, set_stage
    | match goal with
      | |- context [match ?x with _ => _ end] => destruct x
      end ].

Ltac unfold_stages :=
  unfold main, stages, display_chat_history, navigation, upload_stage,
    overview_stage, render_overview, confirm_want_more, details_stage, ask,
    offer_profile_stage, collect_email_stage, submit_email, mock_send_email,
    complete_stage, generate_company_overview.

Ltac appends_steps :=
  repeat first
    [ apply appends_bind; [| intro]
    | apply appends_when
    | apply appends_if
    | apply appends_add_message
    | apply appends_unchanged; solve [unchanged_steps] ].

Ltac run_stages :=
  unfold upload_stage, overview_stage, render_overview, confirm_want_more,
    details_stage, ask, offer_profile_stage, collect_email_stage, submit_email,
    mock_send_email, complete_stage, generate_company_overview, call_chain,
    add_message, set_stage;
  cbn -[validate_email append].

Ltac observe :=
  rewrite ?after_events_fuse; unfold after_events;
  cbn [outcome state_after emitted fst snd].

Ltac finish :=
  rewrite ?after_events_fuse; unfold after_events, ret;
  cbn [outcome state_after emitted fst snd app];
  rewrite ?app_nil_r; reflexivity.

Ltac step :=
  first [ erewrite seq_run by reflexivity
        | erewrite bind_run by reflexivity
        | erewrite bind_raised by reflexivity ];
  cbv beta.

(** *** The store at the start of a run *)

(** X1. [init_session_state] binds only the keys that are missing: a key
    that is bound keeps its value whatever the other keys are, a missing
    key gets its default, and on a store where all keys are bound the
    call changes nothing, so that a rerun continues the session. *)
Theorem init_session_state_fills_missing_keys (st : SessionStore) :
  (forall v, key_conversation st = Some v -> conversation (init_session_state st) = v) /\
  (forall v, key_chat_history st = Some v -> chat_history (init_session_state st) = v) /\
  (forall v, key_processed_pdfs st = Some v ->
             processed_pdfs (init_session_state st) = v) /\
  (forall v, key_company_overview st = Some v ->
             company_overview (init_session_state st) = v) /\
  (forall v, key_conversation_stage st = Some v ->
             conversation_stage (init_session_state st) = v) /\
  (forall v, key_email st = Some v -> email (init_session_state st) = v) /\
  (forall v, key_messages st = Some v -> messages (init_session_state st) = v) /\
  (key_conversation st = None -> conversation (init_session_state st) = None) /\
  (key_chat_history st = None -> chat_history (init_session_state st) = []) /\
  (key_processed_pdfs st = None -> processed_pdfs (init_session_state st) = false) /\
  (key_company_overview st = None -> company_overview (init_session_state st) = None) /\
  (key_conversation_stage st = None ->
   conversation_stage (init_session_state st) = initial) /\
  (key_email st = None -> email (init_session_state st) = None) /\
  (key_messages st = None -> messages (init_session_state st) = []) /\
  init_session_state (store_of (init_session_state st)) = init_session_state st.
Proof.
  destruct st as [c h p o g e m]. cbn.
  repeat split; intros; subst; reflexivity.
Qed.

(** *** Processing the uploaded files *)

Lemma process_all_run lib pdfs s :
  process_all lib pdfs s
  = (all_chunks lib pdfs, s, map ProcessPdf (attempted lib pdfs)).
Proof.
  induction pdfs as [|pdf rest IH]; [reflexivity |].
  cbn [process_all all_chunks attempted map]. step.
  destruct (process_pdf lib pdf) as [chunks|]; cbn [returned].
  - step. destruct (all_chunks lib rest) as [more|].
    + erewrite bind_run by exact IH. finish.
    + erewrite bind_raised by exact IH. finish.
  - erewrite bind_raised by reflexivity. finish.
Qed.

(** X2. The list comprehension over the uploaded files: when every file
    is processed the result is the chunks of the files, concatenated in
    the order of the files, and each file is processed once, in order;
    when some file fails the run raises at the first such file, the files
    after it are never handed to [process_pdf], and the session state is
    untouched in both cases. *)
Theorem process_all_in_order lib :
  (forall pdfs (chunks_of : UploadedFile -> list Document) s,
      (forall pdf, In pdf pdfs -> process_pdf lib pdf = Some (chunks_of pdf)) ->
      process_all lib pdfs s
      = (Some (flat_map chunks_of pdfs), s, map ProcessPdf pdfs)) /\
  (forall before bad rest (chunks_of : UploadedFile -> list Document) s,
      (forall pdf, In pdf before -> process_pdf lib pdf = Some (chunks_of pdf)) ->
      process_pdf lib bad = None ->
      process_all lib (before ++ bad :: rest) s
      = (None, s, map ProcessPdf (before ++ [bad]))).
Proof.
  split.
  - induction pdfs as [|pdf pdfs IH]; intros chunks_of s H; [reflexivity |].
    cbn [process_all flat_map map]. step.
    rewrite (H pdf) by now left. cbn [returned]. step.
    erewrite bind_run by (apply IH; intros p Hp; apply H; now right).
    finish.
  - induction before as [|pdf before IH]; intros bad rest chunks_of s H Hbad.
    + rewrite !app_nil_l. cbn [process_all map]. step. rewrite Hbad. cbn [returned].
      erewrite bind_raised by reflexivity. finish.
    + rewrite <- !app_comm_cons. cbn [process_all map]. step.
      rewrite (H pdf) by now left. cbn [returned]. step.
      erewrite bind_raised
        by (apply (IH bad rest chunks_of); [intros p Hp; apply H; now right | exact Hbad]).
      finish.
Qed.

(** *** Ingestion *)

Lemma after_events_nil {A : Type} (r : Run A) : after_events [] r = r.
Proof. now destruct r as [[o s] e]. Qed.

(** [stages] is the upload stage and what follows it, started in the
    stage that the navigation buttons select. *)
Lemma stages_split w lib s :
  stages w lib s
  = (upload_stage w lib ;; after_upload w lib)
      (with_conversation_stage (nav_stage w s) s).
Proof.
  unfold stages. erewrite seq_run by apply navigation_run.
  apply after_events_nil.
Qed.

Lemma list_truthy_nonempty {A : Type} (l : list A) : l <> [] -> list_truthy l = true.
Proof. destruct l; [contradiction | reflexivity]. Qed.

(** The three ways an ingestion can end. *)
Lemma upload_stage_ingest w lib s :
  conversation_stage s = initial ->
  btn_process_pdfs w = true ->
  pdf_docs w <> [] ->
  exists evs : list Event,
    upload_stage w lib s =
    match ingest lib (pdf_docs w) with
    | None => (None, s, evs)
    | Some chain =>
        match invoke_chain lib chain overview_prompt [] with
        | None =>
            (None, with_processed_pdfs true (with_conversation (Some chain) s), evs)
        | Some answer =>
            (Some tt,
             with_conversation_stage overview
               (with_messages
                  (messages s ++
                   [mkMessage system (Some "Company documents processed successfully!")])%list
                  (with_company_overview (Some answer)
                     (with_processed_pdfs true (with_conversation (Some chain) s)))),
             evs)
        end
    end.
Proof.
  intros Hst Hbtn Hdocs. apply list_truthy_nonempty in Hdocs.
  unfold upload_stage, ingest. step. rewrite Hst, Hbtn, Hdocs.
  cbn [Stage_eqb andb when]. step. step.
  pose proof (process_all_run lib (pdf_docs w) s) as E.
  destruct (all_chunks lib (pdf_docs w)) as [chunks|].
  2:{ erewrite bind_raised by exact E. eexists. finish. }
  erewrite bind_run by exact E. cbv beta. step.
  destruct (get_vectorstore lib chunks) as [vs|]; cbn [returned].
  2:{ step. eexists. finish. }
  step. step.
  destruct (get_conversation_chain lib vs) as [chain|]; cbn [returned].
  2:{ step. eexists. finish. }
  step. step. step. step. unfold generate_company_overview, call_chain.
  cbn [conversation with_processed_pdfs with_conversation].
  destruct (invoke_chain lib chain overview_prompt []) as [answer|].
  2:{ step. eexists. finish. }
  step. unfold add_message, set_stage. step. step. step.
  eexists. rewrite ?after_events_fuse. unfold after_events, emit.
  cbn [outcome state_after emitted fst snd]. reflexivity.
Qed.

(** X3. An ingestion that fails before the chain is built (a file that
    cannot be processed, the vector store or the chain that cannot be
    built) raises and commits nothing: the session is as it was, in the
    upload stage. *)
Theorem failed_ingestion_commits_nothing w lib s :
  nav_stage w s = initial ->
  btn_process_pdfs w = true ->
  pdf_docs w <> [] ->
  ingest lib (pdf_docs w) = None ->
  outcome (main w lib s) = None /\
  state_after (main w lib s) = with_conversation_stage initial s.
Proof.
  intros Hnav Hbtn Hdocs Hfail.
  rewrite main_stages, stages_split, Hnav. observe.
  destruct (upload_stage_ingest w lib (with_conversation_stage initial s)
              eq_refl Hbtn Hdocs) as [evs E].
  rewrite Hfail in E. erewrite bind_raised by exact E. now split.
Qed.

(** X4. An ingestion whose chain is built but whose overview request
    fails raises after the chain and the processed flag are stored: the
    session keeps the new chain with [processed_pdfs] true, while the
    overview, the log, the history and the stage (upload) are as before. *)
Theorem failed_overview_leaves_chain w lib s chain :
  nav_stage w s = initial ->
  btn_process_pdfs w = true ->
  pdf_docs w <> [] ->
  ingest lib (pdf_docs w) = Some chain ->
  invoke_chain lib chain overview_prompt [] = None ->
  outcome (main w lib s) = None /\
  state_after (main w lib s)
  = with_processed_pdfs true
      (with_conversation (Some chain) (with_conversation_stage initial s)).
Proof.
  intros Hnav Hbtn Hdocs Hok Hfail.
  rewrite main_stages, stages_split, Hnav. observe.
  destruct (upload_stage_ingest w lib (with_conversation_stage initial s)
              eq_refl Hbtn Hdocs) as [evs E].
  rewrite Hok, Hfail in E. erewrite bind_raised by exact E. now split.
Qed.

Lemma after_upload_appends w lib : appends (after_upload w lib).
Proof. unfold_stages. appends_steps. Qed.

Lemma after_upload_no w lib s :
  conversation_stage s = overview ->
  processed_pdfs s = true ->
  want_more w = No ->
  after_upload w lib s
  = (Some tt, state_after (render_overview' s), emitted (render_overview' s)).
Proof.
  intros Hst Hp Hno.
  assert (Hst1 : conversation_stage (state_after (render_overview' s)) = overview)
    by now rewrite render_overview_stage.
  erewrite seq_run by (now apply overview_stage_no).
  erewrite seq_run by (apply details_stage_skip; rewrite Hst1; discriminate).
  erewrite seq_run by (apply offer_profile_stage_skip; rewrite Hst1; discriminate).
  erewrite seq_run by (apply collect_email_stage_skip; rewrite Hst1; discriminate).
  rewrite complete_stage_skip by (rewrite Hst1; discriminate).
  finish.
Qed.

(** X5. A successful ingestion: the session holds the new chain, the
    processed flag and the chain's answer to the overview prompt, and the
    log gains "Company documents processed successfully!" before anything
    else the run appends. The run goes on into the overview stage; with
    "No" on its radio it ends there, normally, having logged the overview
    unless an entry already carried that text, with the exchange history
    untouched. *)
Theorem successful_ingestion w lib s chain answer :
  nav_stage w s = initial ->
  btn_process_pdfs w = true ->
  pdf_docs w <> [] ->
  ingest lib (pdf_docs w) = Some chain ->
  invoke_chain lib chain overview_prompt [] = Some answer ->
  conversation (state_after (main w lib s)) = Some chain /\
  processed_pdfs (state_after (main w lib s)) = true /\
  company_overview (state_after (main w lib s)) = Some answer /\
  (exists rest,
      messages (state_after (main w lib s))
      = (messages s
         ++ mkMessage system (Some "Company documents processed successfully!")
            :: rest)%list) /\
  (want_more w = No ->
   outcome (main w lib s) = Some tt /\
   conversation_stage (state_after (main w lib s)) = overview /\
   chat_history (state_after (main w lib s)) = chat_history s /\
   messages (state_after (main w lib s))
   = let log := (messages s
                 ++ [mkMessage system
                       (Some "Company documents processed successfully!")])%list in
     if existsb (fun msg => py_eqb (message msg) (Some answer)) log
     then log
     else (log ++ [mkMessage system (Some answer)])%list).
Proof.
  intros Hnav Hbtn Hdocs Hok Hans.
  rewrite main_stages, stages_split, Hnav. observe.
  destruct (upload_stage_ingest w lib (with_conversation_stage initial s)
              eq_refl Hbtn Hdocs) as [evs E].
  rewrite Hok, Hans in E. erewrite seq_run by exact E.
  match goal with |- context [after_upload w lib ?st] => set (s1 := st) end.
  observe.
  pose proof (after_upload_keeps w lib s1) as H. injection H as H1 H2 H3.
  rewrite H1, H2, H3.
  split; [reflexivity |]. split; [reflexivity |]. split; [reflexivity |]. split.
  - destruct (after_upload_appends w lib s1) as [rest ->].
    exists rest. subst s1. cbn [messages with_messages with_conversation_stage].
    now rewrite <- app_assoc.
  - intros Hno. rewrite (after_upload_no w lib s1) by (exact Hno || reflexivity).
    cbn [outcome state_after fst snd]. rewrite render_overview_run.
    cbn [state_after fst snd]. subst s1. destruct s as [c h p o st e m].
    cbn [messages company_overview with_messages with_conversation_stage
         with_company_overview with_processed_pdfs with_conversation].
    destruct (existsb _ _); repeat split.
Qed.

(** *** What every reachable session satisfies *)

Lemma upload_stage_idle w lib s :
  conversation_stage s = initial ->
  btn_process_pdfs w && list_truthy (pdf_docs w) = false ->
  upload_stage w lib s = (Some tt, s, [Header "📄 Upload Company Documents"]).
Proof.
  intros Hst Hidle. unfold upload_stage. step. rewrite Hst, Hidle.
  cbn [Stage_eqb when]. step. finish.
Qed.

Lemma upload_stage_states w lib s :
  (state_after (upload_stage w lib s) = s /\
   (outcome (upload_stage w lib s) = None -> conversation_stage s = initial))
  \/ (conversation_stage s = initial /\
      exists chain,
        (outcome (upload_stage w lib s) = None /\
         state_after (upload_stage w lib s)
         = with_processed_pdfs true (with_conversation (Some chain) s))
        \/ exists answer,
             outcome (upload_stage w lib s) = Some tt /\
             state_after (upload_stage w lib s)
             = with_conversation_stage overview
                 (with_messages
                    (messages s ++
                     [mkMessage system
                        (Some "Company documents processed successfully!")])%list
                    (with_company_overview (Some answer)
                       (with_processed_pdfs true
                          (with_conversation (Some chain) s))))).
Proof.
  destruct (conversation_stage s) eqn:Hst;
    try (left; rewrite upload_stage_skip by (rewrite Hst; discriminate);
         split; [reflexivity | discriminate]).
  destruct (btn_process_pdfs w && list_truthy (pdf_docs w)) eqn:Hact.
  2:{ left. rewrite upload_stage_idle by assumption. split; [reflexivity | discriminate]. }
  apply andb_true_iff in Hact as [Hbtn Hdocs].
  assert (Hne : pdf_docs w <> []) by (destruct (pdf_docs w); [discriminate | discriminate]).
  destruct (upload_stage_ingest w lib s Hst Hbtn Hne) as [evs E]. rewrite E.
  destruct (ingest lib (pdf_docs w)) as [chain|]; [| left; now split].
  right. split; [reflexivity |]. exists chain.
  destruct (invoke_chain lib chain overview_prompt []) as [answer|].
  - right. exists answer. now split.
  - left. now split.
Qed.

Lemma after_upload_initial w lib s :
  conversation_stage s = initial -> after_upload w lib s = (Some tt, s, @nil Event).
Proof.
  intros Hst.
  erewrite seq_run by (apply overview_stage_skip; rewrite Hst; discriminate).
  erewrite seq_run by (apply details_stage_skip; rewrite Hst; discriminate).
  erewrite seq_run by (apply offer_profile_stage_skip; rewrite Hst; discriminate).
  erewrite seq_run by (apply collect_email_stage_skip; rewrite Hst; discriminate).
  rewrite complete_stage_skip by (rewrite Hst; discriminate).
  finish.
Qed.

Lemma ready_after_navigation w s :
  ready s -> ready (with_conversation_stage (nav_stage w s) s).
Proof.
  unfold ready, nav_stage.
  destruct s as [c h p o st e m], w as [b1 b2 b3 b4 ? ? ? ? ? ? ? ?].
  cbn. intros [H1 H2]. split; [| exact H2].
  destruct p; [reflexivity |]. cbn. destruct b1; [intros H; now contradiction H |].
  exact H1.
Qed.

Lemma ready_after_upload w lib s :
  ready s -> ready (state_after (upload_stage w lib s)).
Proof.
  intros Hr.
  destruct (upload_stage_states w lib s)
    as [[-> _] | (_ & chain & [[_ ->] | (answer & _ & ->)])];
    [exact Hr | |]; unfold ready; cbn; split; intros; (reflexivity || discriminate).
Qed.

Lemma ready_after_the_rest w lib s :
  ready s -> ready (state_after (after_upload w lib s)).
Proof.
  intros [H1 H2].
  pose proof (after_upload_keeps w lib s) as H. injection H as Hc Hp _.
  destruct (processed_pdfs s) eqn:Ep.
  - unfold ready. rewrite Hc, Hp. split; [reflexivity | intros _; now apply H2].
  - assert (Hst : conversation_stage s = initial).
    { destruct (conversation_stage s); try reflexivity;
        (assert (X : false = true) by (apply H1; discriminate)); discriminate. }
    rewrite after_upload_initial by exact Hst. cbn [state_after fst snd].
    unfold ready. rewrite Ep. now split.
Qed.

Lemma ready_after_main w lib s : ready s -> ready (state_after (main w lib s)).
Proof.
  intros Hr. rewrite main_stages, stages_split. observe.
  rewrite state_after_bind.
  apply (ready_after_navigation w) in Hr.
  apply (ready_after_upload w lib) in Hr.
  destruct (outcome (upload_stage w lib _)); [| exact Hr].
  now apply ready_after_the_rest.
Qed.

(** X6. Every session the program can reach from a new one, by any runs
    on any widget values and library results, raised or not, satisfies:
    outside the upload stage documents have been processed, and whenever
    documents have been processed a chain is stored. So no stage that
    uses the chain is entered without one. *)
Theorem reachable_sessions_are_ready (runs : list (Widgets * Libraries)) :
  let s := session_from new_session runs in
  (conversation_stage s <> initial -> processed_pdfs s = true) /\
  (processed_pdfs s = true -> exists chain, conversation s = Some chain).
Proof.
  cbn zeta.
  assert (H : forall s0 : SessionState, ready s0 -> ready (session_from s0 runs)).
  { unfold session_from. induction runs as [|[w lib] runs IH]; intros s0 H0.
    - exact H0.
    - cbn [fold_left]. apply IH. rewrite rerun_main. now apply ready_after_main. }
  destruct (H new_session) as [H1 H2].
  { split; [intros X; now contradiction X | discriminate]. }
  split; [exact H1 |]. intros Hp. specialize (H2 Hp).
  destruct (conversation (session_from new_session runs)) as [chain|];
    [now exists chain | contradiction].
Qed.

(** X7. Before any document is processed nothing but an ingestion
    changes the session: in the upload stage with [processed_pdfs] false,
    a run in which "Process PDFs" is not pressed, or is pressed with no
    file, ends normally and leaves the whole session state as it was,
    whichever other buttons, radios and inputs are set. *)
Theorem nothing_happens_before_ingestion w lib s :
  processed_pdfs s = false ->
  conversation_stage s = initial ->
  btn_process_pdfs w && list_truthy (pdf_docs w) = false ->
  outcome (main w lib s) = Some tt /\ state_after (main w lib s) = s.
Proof.
  intros Hp Hst Hidle.
  assert (Hnav : with_conversation_stage (nav_stage w s) s = s).
  { unfold nav_stage. rewrite Hp, Hst. cbn [andb].
    destruct s as [c h p o st e m]. cbn in Hst. subst st.
    now destruct (btn_upload_documents w). }
  rewrite main_stages, stages_split, Hnav. observe.
  erewrite seq_run by (now apply upload_stage_idle).
  rewrite after_upload_initial by exact Hst. now split.
Qed.

(** X8. Nothing resets an ingestion: over any sequence of runs
    [processed_pdfs], once true, stays true, and a stored chain is never
    replaced by [None]. *)
Theorem ingestion_is_never_undone (runs : list (Widgets * Libraries)) s :
  (processed_pdfs s = true -> processed_pdfs (session_from s runs) = true) /\
  (conversation s <> None -> conversation (session_from s runs) <> None).
Proof.
  assert (H : forall w lib s0,
             (processed_pdfs s0 = true ->
              processed_pdfs (state_after (main w lib s0)) = true) /\
             (conversation s0 <> None ->
              conversation (state_after (main w lib s0)) <> None)).
  { intros w lib s0. rewrite main_stages, stages_split. observe.
    rewrite state_after_bind.
    set (s1 := with_conversation_stage (nav_stage w s0) s0).
    change (processed_pdfs s0) with (processed_pdfs s1).
    change (conversation s0) with (conversation s1).
    assert (Hu : (processed_pdfs s1 = true ->
                  processed_pdfs (state_after (upload_stage w lib s1)) = true) /\
                 (conversation s1 <> None ->
                  conversation (state_after (upload_stage w lib s1)) <> None)).
    { destruct (upload_stage_states w lib s1)
        as [[-> _] | (_ & chain & [[_ ->] | (answer & _ & ->)])];
        [now split | |]; cbn; split; intros; (reflexivity || discriminate). }
    destruct (outcome (upload_stage w lib s1)); [| exact Hu].
    pose proof (after_upload_keeps w lib (state_after (upload_stage w lib s1))) as K.
    injection K as Kc Kp _. rewrite Kc, Kp. exact Hu. }
  revert s. unfold session_from.
  induction runs as [|[w lib] runs IH]; intros s; [now split |].
  cbn [fold_left]. rewrite rerun_main.
  destruct (IH (state_after (main w lib s))) as [I1 I2].
  destruct (H w lib s) as [H1 H2]. split; auto.
Qed.

(** *** Pages that are shown again *)

Lemma no_navigation_navigated w s : no_navigation w = true -> navigated w s = false.
Proof.
  unfold no_navigation, navigated. intros H. apply negb_true_iff in H.
  apply orb_false_iff in H as [H ->]. apply orb_false_iff in H as [H ->].
  apply orb_false_iff in H as [-> ->]. cbn. apply andb_false_r.
Qed.

Lemma stages_offer_declined w lib s :
  conversation_stage s = offer_profile ->
  navigated w s = false ->
  email_option w = No ->
  stages w lib s =
  (Some tt,
   with_messages
     (messages s ++ [mkMessage system (Some "User declined company profile")])%list s,
   [Header "📧 Company Profile Delivery";
    Write (Some "Would you like us to send the company profile to your email?");
    Write (Some "Thank you for your interest!")]).
Proof.
  intros Hst Hnav Hopt. rewrite stages_idle by exact Hnav.
  destruct s as [c h p o st e m]. cbn in Hst. subst st.
  unfold offer_profile_stage. rewrite Hopt. run_stages. destruct p; reflexivity.
Qed.

Lemma stages_offer_accepted w lib s :
  conversation_stage s = offer_profile ->
  navigated w s = false ->
  email_option w = Yes ->
  btn_confirm_email w = false ->
  stages w lib s =
  (Some tt,
   with_conversation_stage collect_email
     (with_messages
        (messages s
         ++ [mkMessage user (Some "Interested in receiving company profile")])%list s),
   [Header "📧 Company Profile Delivery";
    Write (Some "Would you like us to send the company profile to your email?");
    Header "📧 Email Collection"]).
Proof.
  intros Hst Hnav Hopt Hbtn. rewrite stages_idle by exact Hnav.
  destruct s as [c h p o st e m]. cbn in Hst. subst st.
  unfold offer_profile_stage, collect_email_stage. rewrite Hopt, Hbtn.
  run_stages. destruct p; reflexivity.
Qed.

Lemma stages_collect_idle w lib s :
  conversation_stage s = collect_email ->
  navigated w s = false ->
  btn_confirm_email w = false ->
  stages w lib s = (Some tt, s, [Header "📧 Email Collection"]).
Proof.
  intros Hst Hnav Hbtn. rewrite stages_idle by exact Hnav.
  destruct s as [c h p o st e m]. cbn in Hst. subst st.
  unfold collect_email_stage. rewrite Hbtn.
  run_stages. destruct p; reflexivity.
Qed.

Lemma with_messages_twice (l1 l2 : list Message) s :
  with_messages l2 (with_messages l1 s) = with_messages l2 s.
Proof. reflexivity. Qed.

Lemma repeat_snoc {A : Type} (x : A) (l : list A) n :
  ((l ++ [x]) ++ repeat x n = l ++ repeat x (S n))%list.
Proof. now rewrite <- app_assoc. Qed.

(** X9. The completion page logs on every rerun: each run in the
    completion stage with no navigation button pressed appends one more
    "Conversation completed" and changes nothing else, so after [n] such
    runs the log ends with [n] further copies. *)
Theorem completion_message_repeats (runs : list (Widgets * Libraries)) s :
  conversation_stage s = complete ->
  Forall (fun r => no_navigation (fst r) = true) runs ->
  session_from s runs
  = with_messages
      (messages s
       ++ repeat (mkMessage system (Some "Conversation completed")) (length runs))%list
      s.
Proof.
  unfold session_from. revert s.
  induction runs as [|[w lib] runs IH]; intros s Hst Hall.
  - cbn. rewrite app_nil_r. now destruct s.
  - inversion Hall as [|r rs Hw Hrs]; subst. cbn [fold_left fst] in *.
    rewrite rerun_main, main_stages.
    rewrite stages_complete by (exact Hst || now apply no_navigation_navigated).
    observe. rewrite IH by (exact Hst || exact Hrs).
    cbn [messages with_messages List.length]. rewrite repeat_snoc. reflexivity.
Qed.

(** X10. Declining the profile: each run in the profile offer stage with
    "No" on the radio and no navigation button pressed appends "User
    declined company profile" and stays in that stage with everything
    else unchanged, so [n] such runs append the message [n] times. *)
Theorem declined_offer_repeats (runs : list (Widgets * Libraries)) s :
  conversation_stage s = offer_profile ->
  Forall (fun r => no_navigation (fst r) = true /\ email_option (fst r) = No) runs ->
  session_from s runs
  = with_messages
      (messages s
       ++ repeat (mkMessage system (Some "User declined company profile"))
                 (length runs))%list
      s.
Proof.
  unfold session_from. revert s.
  induction runs as [|[w lib] runs IH]; intros s Hst Hall.
  - cbn. rewrite app_nil_r. now destruct s.
  - inversion Hall as [|r rs [Hw Hno] Hrs]; subst. cbn [fold_left fst] in *.
    rewrite rerun_main, main_stages.
    rewrite stages_offer_declined
      by (exact Hst || exact Hno || now apply no_navigation_navigated).
    observe. rewrite IH by (exact Hst || exact Hrs).
    cbn [messages with_messages List.length]. rewrite repeat_snoc. reflexivity.
Qed.

(** X11. Accepting the profile: a run in the profile offer stage with
    "Yes" on the radio (no navigation, "Confirm Email" not pressed) logs
    the user entry "Interested in receiving company profile" and moves
    to the email collection stage, where, until "Confirm Email" is
    pressed, reruns change nothing, whatever is typed in the address box. *)
Theorem accepted_offer_waits_for_email :
  (forall w lib s,
      conversation_stage s = offer_profile ->
      navigated w s = false ->
      email_option w = Yes ->
      btn_confirm_email w = false ->
      outcome (main w lib s) = Some tt /\
      state_after (main w lib s)
      = with_conversation_stage collect_email
          (with_messages
             (messages s
              ++ [mkMessage user (Some "Interested in receiving company profile")])%list
             s)) /\
  (forall w lib s,
      conversation_stage s = collect_email ->
      navigated w s = false ->
      btn_confirm_email w = false ->
      outcome (main w lib s) = Some tt /\ state_after (main w lib s) = s).
Proof.
  split.
  - intros w lib s Hst Hnav Hopt Hbtn.
    rewrite main_stages, stages_offer_accepted by assumption. now split.
  - intros w lib s Hst Hnav Hbtn.
    rewrite main_stages, stages_collect_idle by assumption. now split.
Qed.

(** *** Questions *)

Lemma ask_raised lib q s :
  q <> "" ->
  match conversation s with
  | None => True
  | Some chain => invoke_chain lib chain q (chat_history s) = None
  end ->
  exists evs : list Event,
    ask lib q s
    = (None, with_messages (messages s ++ [mkMessage user (Some q)])%list s, evs).
Proof.
  intros Hq Hfail. apply str_truthy_nonempty in Hq.
  unfold ask. rewrite Hq. cbn [when]. unfold add_message. step. step. step.
  destruct s as [c h p o st e m]. cbn [conversation chat_history] in *.
  unfold call_chain. cbn [conversation chat_history with_messages].
  destruct c as [chain|].
  - rewrite Hfail. erewrite bind_raised by reflexivity. eexists. finish.
  - erewrite bind_raised by reflexivity. eexists. finish.
Qed.

(** X12. A question that cannot be answered (no chain in the session, or
    the chain raises): the run raises after the question was logged, so
    the log has gained the user entry and nothing else, no answer, and
    the exchange history and the stage are as before. *)
Theorem unanswered_question_stays_logged w lib s :
  conversation_stage s = details ->
  navigated w s = false ->
  user_question w <> "" ->
  match conversation s with
  | None => True
  | Some chain => invoke_chain lib chain (user_question w) (chat_history s) = None
  end ->
  outcome (main w lib s) = None /\
  state_after (main w lib s)
  = with_messages (messages s ++ [mkMessage user (Some (user_question w))])%list s.
Proof.
  intros Hst Hnav Hq Hfail.
  destruct (ask_raised lib (user_question w) s Hq Hfail) as [evs E].
  rewrite main_stages, stages_idle by exact Hnav. observe.
  erewrite seq_run by (apply upload_stage_skip; rewrite Hst; discriminate).
  erewrite seq_run by (apply overview_stage_skip; rewrite Hst; discriminate).
  erewrite bind_raised; [now split |].
  unfold details_stage. step. rewrite Hst. cbn [Stage_eqb when]. step.
  erewrite bind_raised by exact E. finish.
Qed.

Lemma records_unchanged {A : Type} q (m : App A) :
  unchanged_by chat_history m -> records_at_most_one q m.
Proof. intros H s. left. apply H. Qed.

Lemma records_bind_l {A B : Type} q (m : App A) (k : A -> App B) :
  unchanged_by chat_history m -> (forall a, records_at_most_one q (k a)) ->
  records_at_most_one q (bind m k).
Proof.
  intros Hm Hk s. rewrite state_after_bind.
  destruct (outcome (m s)) as [a|]; [| left; apply Hm].
  destruct (Hk a (state_after (m s))) as [H | [answer H]];
    [left | right; exists answer]; rewrite H, (Hm s); reflexivity.
Qed.

Lemma records_bind_r {A B : Type} q (m : App A) (k : A -> App B) :
  records_at_most_one q m -> (forall a, unchanged_by chat_history (k a)) ->
  records_at_most_one q (bind m k).
Proof.
  intros Hm Hk s. rewrite state_after_bind.
  destruct (outcome (m s)) as [a|]; [| apply Hm].
  destruct (Hm s) as [H | [answer H]]; [left | right; exists answer];
    rewrite Hk; exact H.
Qed.

Lemma records_ask lib q : records_at_most_one q (ask lib q).
Proof.
  unfold ask. destruct (str_truthy q); [| apply records_unchanged, unchanged_ret].
  cbn [when].
  apply records_bind_l; [unchanged_steps | intros _].
  apply records_bind_l; [unchanged_steps | intros conv].
  apply records_bind_l; [unchanged_steps | intros history].
  apply records_bind_l; [unchanged_steps | intros bot_answer].
  apply records_bind_l; [unchanged_steps | intros _].
  apply records_bind_l; [unchanged_steps | intros _].
  intros s. right. now exists bot_answer.
Qed.

Lemma records_main w lib : records_at_most_one (user_question w) (main w lib).
Proof.
  unfold main.
  apply records_bind_l; [unchanged_steps | intros _].
  apply records_bind_l; [unfold_stages; unchanged_steps | intros _].
  apply records_bind_l; [unfold_stages; unchanged_steps | intros _].
  apply records_bind_l; [unfold_stages; unchanged_steps | intros _].
  apply records_bind_l; [unfold_stages; unchanged_steps | intros _].
  apply records_bind_r; [| intros _; unfold_stages; unchanged_steps].
  unfold details_stage.
  apply records_bind_l; [unchanged_steps | intros stage].
  destruct (Stage_eqb stage details); [| apply records_unchanged, unchanged_ret].
  cbn [when].
  apply records_bind_l; [unchanged_steps | intros _].
  apply records_bind_r; [apply records_ask | intros _; unchanged_steps].
Qed.

(** X13. The exchange history changes only by a question: a run leaves
    it as it was or appends one pair, whose question is the text of the
    question box; so over any sequence of runs the earlier history stays
    a prefix of the later one. *)
Theorem history_grows_by_questions :
  (forall w lib s,
      chat_history (state_after (main w lib s)) = chat_history s
      \/ exists answer,
           chat_history (state_after (main w lib s))
           = (chat_history s ++ [(user_question w, answer)])%list) /\
  (forall (runs : list (Widgets * Libraries)) s,
      exists added,
        chat_history (session_from s runs) = (chat_history s ++ added)%list /\
        List.length added <= List.length runs).
Proof.
  split; [exact records_main |].
  unfold session_from. induction runs as [|[w lib] runs IH]; intros s.
  - exists []. cbn. now rewrite app_nil_r.
  - cbn [fold_left]. rewrite rerun_main.
    destruct (IH (state_after (main w lib s))) as (added & -> & Hlen).
    destruct (records_main w lib s) as [-> | [answer ->]].
    + exists added. split; [reflexivity | cbn; lia].
    + exists ((user_question w, answer) :: added). rewrite <- app_assoc.
      split; [reflexivity | cbn; lia].
Qed.

(** *** Runs that cannot raise *)

Lemma succeeds_ret {A : Type} (a : A) : succeeds (ret a).
Proof. intros s. discriminate. Qed.

Lemma succeeds_emit (e : Event) : succeeds (emit e).
Proof. intros s. discriminate. Qed.

Lemma succeeds_gets {A : Type} (g : SessionState -> A) : succeeds (gets g).
Proof. intros s. discriminate. Qed.

Lemma succeeds_modify (g : SessionState -> SessionState) : succeeds (modify g).
Proof. intros s. discriminate. Qed.

Lemma succeeds_bind {A B : Type} (m : App A) (k : A -> App B) :
  succeeds m -> (forall a, succeeds (k a)) -> succeeds (bind m k).
Proof.
  intros Hm Hk s. rewrite outcome_bind.
  destruct (outcome (m s)) as [a|] eqn:E; [apply Hk |].
  exfalso. exact (Hm s E).
Qed.

Lemma succeeds_when (b : bool) (m : App unit) : succeeds m -> succeeds (when b m).
Proof. intros H. destruct b; [exact H | apply succeeds_ret]. Qed.

Lemma succeeds_if {A : Type} (b : bool) (m1 m2 : App A) :
  succeeds m1 -> succeeds m2 -> succeeds (if b then m1 else m2).
Proof. now destruct b. Qed.

Lemma succeeds_for_each {A : Type} (l : list A) (body : A -> App unit) :
  (forall x, succeeds (body x)) -> succeeds (for_each l body).
Proof.
  intros H. induction l as [|x l IH]; cbn [for_each].
  - apply succeeds_ret.
  - apply succeeds_bind; [apply H | intros _; exact IH].
Qed.

Ltac succeeds_steps :=
  repeat first
    [ apply succeeds_bind; [| intro]
    | apply succeeds_when
    | apply succeeds_if
    | apply succeeds_for_each; intro
    | apply succeeds_ret
    | apply succeeds_emit
    | apply succeeds_gets
    | apply succeeds_modify
    | progress unfold add_message, set_stage
    | match goal with
      | |- context [match ?x with _ => _ end] => destruct x
      end ].

(** X14. Only the libraries make a run raise: a run in which "Process
    PDFs" is not pressed and the question box is empty ends normally, in
    every session state and for all other widget values. *)
Theorem quiet_runs_never_raise w lib s :
  btn_process_pdfs w = false ->
  user_question w = "" ->
  outcome (main w lib s) = Some tt.
Proof.
  intros Hbtn Hq.
  assert (H : succeeds (main w lib)).
  { unfold main, display_chat_history, navigation, upload_stage, overview_stage,
      render_overview, confirm_want_more, details_stage, ask, offer_profile_stage,
      collect_email_stage, submit_email, mock_send_email, complete_stage.
    rewrite Hbtn, Hq. cbn [andb str_truthy].
    change (when false ?m) with (@ret UploadedFile Document VectorStore Chain unit tt).
    succeeds_steps. }
  specialize (H s). destruct (outcome (main w lib s)) as [[]|];
    [reflexivity | contradiction].
Qed.

(** *** What the sidebar shows *)

Section EmitsOnly.

Context (P : Event -> Prop).

Lemma emits_ret {A : Type} (a : A) : emits_only P (ret a).
Proof. intros s. constructor. Qed.

Lemma emits_raise {A : Type} : emits_only P (@raise _ _ _ _ A).
Proof. intros s. constructor. Qed.

Lemma emits_gets {A : Type} (g : SessionState -> A) : emits_only P (gets g).
Proof. intros s. constructor. Qed.

Lemma emits_modify (g : SessionState -> SessionState) : emits_only P (modify g).
Proof. intros s. constructor. Qed.

Lemma emits_returned {A : Type} (r : option A) : emits_only P (returned r).
Proof. destruct r; intros s; constructor. Qed.

Lemma emits_emit (e : Event) : P e -> emits_only P (emit e).
Proof. intros H s. now repeat constructor. Qed.

Lemma emits_bind {A B : Type} (m : App A) (k : A -> App B) :
  emits_only P m -> (forall a, emits_only P (k a)) -> emits_only P (bind m k).
Proof.
  intros Hm Hk s. rewrite emitted_bind. apply Forall_app. split; [apply Hm |].
  destruct (outcome (m s)); [apply Hk | constructor].
Qed.

Lemma emits_when (b : bool) (m : App unit) :
  emits_only P m -> emits_only P (when b m).
Proof. intros H. destruct b; [exact H | apply emits_ret]. Qed.

Lemma emits_if {A : Type} (b : bool) (m1 m2 : App A) :
  emits_only P m1 -> emits_only P m2 -> emits_only P (if b then m1 else m2).
Proof. now destruct b. Qed.

Lemma emits_call_chain lib c q h :
  (forall chain, P (Invoke chain q h)) -> emits_only P (call_chain lib c q h).
Proof.
  intros H. destruct c as [c|]; cbn [call_chain]; [| apply emits_raise].
  apply emits_bind; [now apply emits_emit | intros _; apply emits_returned].
Qed.

Lemma emits_process_all lib pdfs :
  (forall pdf, P (ProcessPdf pdf)) -> emits_only P (process_all lib pdfs).
Proof.
  intros H. induction pdfs as [|pdf rest IH]; cbn [process_all]; [apply emits_ret |].
  apply emits_bind; [now apply emits_emit | intros _].
  apply emits_bind; [apply emits_returned | intros chunks].
  apply emits_bind; [exact IH | intros more; apply emits_ret].
Qed.

End EmitsOnly.

Ltac emits_steps :=
  repeat first
    [ apply emits_bind; [| intro]
    | apply emits_when
    | apply emits_if
    | apply emits_ret
    | apply emits_raise
    | apply emits_gets
    | apply emits_modify
    | apply emits_returned
    | apply emits_emit; reflexivity
    | apply emits_call_chain; intro; reflexivity
    | apply emits_process_all; intro; reflexivity
    | progress unfold add_message, set_stage
    | match goal with
      | |- context [match ?x with _ => _ end] => destruct x
      end ].

Lemma stages_write_no_sidebar w lib :
  emits_only (fun e => is_sidebar_write e = false) (stages w lib).
Proof.
  unfold stages, navigation, upload_stage, overview_stage, render_overview,
    confirm_want_more, details_stage, ask, offer_profile_stage,
    collect_email_stage, submit_email, mock_send_email, complete_stage,
    generate_company_overview.
  emits_steps.
Qed.

(** X15. The sidebar shows the log as it stood when the run began: the
    lines written to the sidebar in a run are, in order, one line per
    entry of the log at the start of the run (user and system entries
    with their own prefix, [None] printed as "None"), and nothing the
    run appends is shown before the next run. *)
Theorem sidebar_shows_log_at_start w lib s :
  filter is_sidebar_write (emitted (main w lib s)) = map sidebar_line (messages s).
Proof.
  rewrite main_stages. observe. rewrite filter_app.
  assert (E : filter is_sidebar_write (emitted (stages w lib s)) = []).
  { pose proof (stages_write_no_sidebar w lib s) as H.
    induction H as [|e l He _ IH]; [reflexivity |].
    cbn [filter]. now rewrite He. }
  rewrite E, app_nil_r. unfold page_top. cbn [filter is_sidebar_write].
  induction (messages s) as [|msg l IH]; [reflexivity |].
  cbn [map filter]. unfold sidebar_line at 1.
  destruct (role msg); cbn [is_sidebar_write]; now rewrite IH.
Qed.

(** *** Pages that the default radio skips *)

Lemma keeps_unchanged {A : Type} (I : SessionState -> Prop) (m : App A) :
  unchanged_by (fun s => s) m -> keeps I m.
Proof. intros H s Hs. now rewrite H. Qed.

Lemma keeps_bind {A B : Type} (I : SessionState -> Prop) (m : App A) (k : A -> App B) :
  keeps I m -> (forall a, keeps I (k a)) -> keeps I (bind m k).
Proof.
  intros Hm Hk s Hs. rewrite state_after_bind.
  destruct (outcome (m s)) as [a|]; [apply Hk |]; now apply Hm.
Qed.

Lemma keeps_when (I : SessionState -> Prop) (b : bool) (m : App unit) :
  keeps I m -> keeps I (when b m).
Proof. intros H. destruct b; [exact H | now intros s Hs]. Qed.

Lemma keeps_if {A : Type} (I : SessionState -> Prop) (b : bool) (m1 m2 : App A) :
  keeps I m1 -> keeps I m2 -> keeps I (if b then m1 else m2).
Proof. now destruct b. Qed.

Lemma keeps_modify (I : SessionState -> Prop) (g : SessionState -> SessionState) :
  (forall s, I s -> I (g s)) -> keeps I (modify g).
Proof. intros H s Hs. now apply H. Qed.

Ltac keeps_steps :=
  repeat first
    [ apply keeps_bind; [| intro]
    | apply keeps_when
    | apply keeps_if
    | apply keeps_modify; intros ? ?; cbn; solve [assumption | discriminate]
    | apply keeps_unchanged; solve [unchanged_steps]
    | progress unfold add_message, set_stage ].

Lemma seq_post (Q : SessionState -> Prop) (m k : App unit) s :
  (outcome (m s) = None -> Q (state_after (m s))) ->
  Q (state_after (k (state_after (m s)))) ->
  Q (state_after ((m ;; k) s)).
Proof.
  intros Hraise Hk. rewrite state_after_bind.
  destruct (outcome (m s)); [exact Hk | now apply Hraise].
Qed.

Lemma upload_raised_in_initial w lib s :
  outcome (upload_stage w lib s) = None ->
  conversation_stage (state_after (upload_stage w lib s)) = initial.
Proof.
  intros Hraise.
  destruct (upload_stage_states w lib s)
    as [[-> H] | (Hst & chain & [[_ ->] | (answer & Hok & _)])].
  - now apply H.
  - exact Hst.
  - rewrite Hok in Hraise. discriminate.
Qed.

Lemma overview_stage_succeeds w : succeeds (overview_stage' w).
Proof. unfold overview_stage, render_overview, confirm_want_more. succeeds_steps. Qed.

Lemma details_raised_in_details w lib s :
  outcome (details_stage w lib s) = None ->
  conversation_stage (state_after (details_stage w lib s)) = details.
Proof.
  destruct (conversation_stage s) eqn:Hst;
    try (rewrite details_stage_skip by (rewrite Hst; discriminate); discriminate).
  unfold details_stage. step. rewrite Hst. cbn [Stage_eqb when]. step. observe.
  rewrite outcome_bind, state_after_bind.
  destruct (outcome (ask lib (user_question w) s)).
  - destruct (btn_full_profile w); discriminate.
  - intros _.
    assert (H : unchanged_by conversation_stage (ask lib (user_question w)))
      by (unfold ask; unchanged_steps).
    now rewrite H.
Qed.

Lemma after_details_yes w s :
  email_option w = Yes ->
  conversation_stage (state_after (after_details w s)) <> offer_profile.
Proof.
  intros Hopt. unfold offer_profile_stage, collect_email_stage, submit_email.
  rewrite Hopt.
  destruct s as [c h p o st e m], st, (btn_confirm_email w),
    (validate_email (email_input w)); discriminate.
Qed.

Lemma after_overview_not_overview w lib :
  keeps (fun s => conversation_stage s <> overview) (after_overview w lib).
Proof.
  unfold details_stage, ask, offer_profile_stage, collect_email_stage, submit_email,
    mock_send_email, complete_stage.
  keeps_steps.
Qed.

Lemma overview_stage_yes w s :
  want_more w = Yes ->
  processed_pdfs s = true \/ conversation_stage s <> overview ->
  conversation_stage (state_after (overview_stage' w s)) <> overview.
Proof.
  intros Hyes Hs. unfold overview_stage, confirm_want_more. rewrite Hyes.
  step. step. rewrite !after_events_nil.
  destruct (conversation_stage s) eqn:Hst; cbn [Stage_eqb];
    rewrite ?andb_false_r, ?andb_true_r;
    try (cbn [when ret state_after fst snd]; rewrite Hst; discriminate).
  destruct Hs as [-> | Hs]; [| now contradiction Hs].
  cbn [when YesNo_eqb].
  erewrite seq_run by apply render_overview_run.
  unfold add_message, set_stage. step. observe. cbn. discriminate.
Qed.

(** X16. The pages whose radio stands at "Yes" (its default) are never
    where a run ends. With "Yes" on the profile radio no run ends in the
    profile offer stage; with "Yes" on the overview radio no run ends in
    the overview stage (from a session that has processed documents or is
    not in the overview stage). This holds for runs that raise as well. *)
Theorem default_radios_skip_their_pages w lib s :
  (email_option w = Yes ->
   conversation_stage (state_after (main w lib s)) <> offer_profile) /\
  (want_more w = Yes ->
   processed_pdfs s = true \/ conversation_stage s <> overview ->
   conversation_stage (state_after (main w lib s)) <> overview).
Proof.
  rewrite main_stages, stages_split. observe.
  set (s0 := with_conversation_stage (nav_stage w s) s). split.
  - intros Hopt.
    apply (seq_post (fun st => conversation_stage st <> offer_profile)).
    { intros H. rewrite upload_raised_in_initial by exact H. discriminate. }
    apply (seq_post (fun st => conversation_stage st <> offer_profile)).
    { intros H. now apply overview_stage_succeeds in H. }
    apply (seq_post (fun st => conversation_stage st <> offer_profile)).
    { intros H. rewrite details_raised_in_details by exact H. discriminate. }
    now apply after_details_yes.
  - intros Hyes Hs.
    assert (H0 : processed_pdfs s0 = true \/ conversation_stage s0 <> overview).
    { subst s0. unfold nav_stage.
      destruct s as [c h p o st e m]. cbn in *.
      destruct p; [now left | right]. cbn.
      destruct Hs as [Hs | Hs]; [discriminate |].
      destruct (btn_upload_documents w); [discriminate | exact Hs]. }
    apply (seq_post (fun st => conversation_stage st <> overview)).
    { intros H. rewrite upload_raised_in_initial by exact H. discriminate. }
    assert (H1 : processed_pdfs (state_after (upload_stage w lib s0)) = true
                 \/ conversation_stage (state_after (upload_stage w lib s0))
                    <> overview).
    { destruct (upload_stage_states w lib s0)
        as [[-> _] | (_ & chain & [[_ ->] | (answer & _ & ->)])];
        [exact H0 | now left | now left]. }
    apply (seq_post (fun st => conversation_stage st <> overview)).
    { intros H. now apply overview_stage_succeeds in H. }
    apply after_overview_not_overview. now apply overview_stage_yes.
Qed.

(** *** Moving on from the overview and from the details *)

Lemma overview_stage_yes_run w s :
  conversation_stage s = overview ->
  processed_pdfs s = true ->
  want_more w = Yes ->
  overview_stage' w s =
  (Some tt,
   with_conversation_stage details
     (with_messages
        (messages (state_after (render_overview' s))
         ++ [mkMessage user (Some "Want to know more about the company")])%list
        s),
   [Header "🏢 Company Overview"; Write (company_overview s)]).
Proof.
  intros Hst Hp Hyes. unfold overview_stage, confirm_want_more.
  step. step. rewrite Hst, Hp, Hyes. cbn [andb Stage_eqb YesNo_eqb when].
  erewrite seq_run by apply render_overview_run.
  unfold add_message, set_stage. step.
  rewrite render_overview_run. cbn [state_after fst snd].
  destruct s as [c h p o st e m].
  cbn [company_overview messages].
  destruct (existsb _ m); finish.
Qed.

Lemma details_stage_idle w lib s :
  conversation_stage s = details ->
  user_question w = "" ->
  btn_full_profile w = false ->
  details_stage w lib s = (Some tt, s, [Header "❓ Ask Company Details"]).
Proof.
  intros Hst Hq Hbtn. unfold details_stage, ask. step.
  rewrite Hst, Hq, Hbtn. cbn [Stage_eqb str_truthy when]. step. step. finish.
Qed.

Lemma stages_want_more w lib s :
  conversation_stage s = overview ->
  processed_pdfs s = true ->
  navigated w s = false ->
  want_more w = Yes ->
  user_question w = "" ->
  btn_full_profile w = false ->
  stages w lib s =
  (Some tt,
   with_conversation_stage details
     (with_messages
        (messages (state_after (render_overview' s))
         ++ [mkMessage user (Some "Want to know more about the company")])%list
        s),
   [Header "🏢 Company Overview"; Write (company_overview s);
    Header "❓ Ask Company Details"]).
Proof.
  intros Hst Hp Hnav Hyes Hq Hbtn. rewrite stages_idle by exact Hnav.
  erewrite seq_run by (apply upload_stage_skip; rewrite Hst; discriminate).
  erewrite seq_run by (now apply overview_stage_yes_run).
  erewrite seq_run by (now apply details_stage_idle).
  erewrite seq_run by (now apply offer_profile_stage_skip).
  erewrite seq_run by (now apply collect_email_stage_skip).
  rewrite complete_stage_skip by discriminate.
  finish.
Qed.

(** X22. Wanting more: a run in the overview stage with "Yes" on the
    radio (documents processed, no navigation, empty question box) shows
    the overview, logging it unless already logged, then logs the user
    entry "Want to know more about the company" and ends, normally, in the
    details stage; nothing else of the session changes. *)
Theorem want_more_moves_to_details w lib s :
  conversation_stage s = overview ->
  processed_pdfs s = true ->
  navigated w s = false ->
  want_more w = Yes ->
  user_question w = "" ->
  btn_full_profile w = false ->
  outcome (main w lib s) = Some tt /\
  state_after (main w lib s)
  = with_conversation_stage details
      (with_messages
         (messages (state_after (render_overview' s))
          ++ [mkMessage user (Some "Want to know more about the company")])%list
         s).
Proof.
  intros Hst Hp Hnav Hyes Hq Hbtn.
  rewrite main_stages, stages_want_more by assumption. now split.
Qed.

Lemma stages_full_profile w lib s :
  conversation_stage s = details ->
  navigated w s = false ->
  user_question w = "" ->
  btn_full_profile w = true ->
  btn_confirm_email w = false ->
  stages w lib s =
  (Some tt,
   match email_option w with
   | Yes =>
       with_conversation_stage collect_email
         (with_messages
            (messages s
             ++ [mkMessage user (Some "Interested in receiving company profile")])%list
            s)
   | No =>
       with_conversation_stage offer_profile
         (with_messages
            (messages s
             ++ [mkMessage system (Some "User declined company profile")])%list
            s)
   end,
   match email_option w with
   | Yes =>
       [Header "❓ Ask Company Details";
        Header "📧 Company Profile Delivery";
        Write (Some "Would you like us to send the company profile to your email?");
        Header "📧 Email Collection"]
   | No =>
       [Header "❓ Ask Company Details";
        Header "📧 Company Profile Delivery";
        Write (Some "Would you like us to send the company profile to your email?");
        Write (Some "Thank you for your interest!")]
   end).
Proof.
  intros Hst Hnav Hq Hbtn Hconfirm. rewrite stages_idle by exact Hnav.
  destruct s as [c h p o st e m]. cbn in Hst. subst st.
  unfold details_stage, ask, offer_profile_stage, collect_email_stage.
  rewrite Hq, Hbtn, Hconfirm.
  destruct (email_option w), p; run_stages; reflexivity.
Qed.

(** X23. Asking for the full profile: in the details stage, "I'd like
    the full company profile" (empty question box, no navigation) moves
    to the profile offer stage, whose block runs in the same run: with
    "Yes" on its radio the run logs "Interested in receiving company
    profile" and ends in the email collection stage, with "No" it logs
    "User declined company profile" and ends in the profile offer stage. *)
Theorem full_profile_runs_the_offer w lib s :
  conversation_stage s = details ->
  navigated w s = false ->
  user_question w = "" ->
  btn_full_profile w = true ->
  btn_confirm_email w = false ->
  outcome (main w lib s) = Some tt /\
  state_after (main w lib s)
  = match email_option w with
    | Yes =>
        with_conversation_stage collect_email
          (with_messages
             (messages s
              ++ [mkMessage user (Some "Interested in receiving company profile")])%list
             s)
    | No =>
        with_conversation_stage offer_profile
          (with_messages
             (messages s
              ++ [mkMessage system (Some "User declined company profile")])%list
             s)
    end.
Proof.
  intros Hst Hnav Hq Hbtn Hconfirm.
  rewrite main_stages, stages_full_profile by assumption. now split.
Qed.

End MoreControllerFacts.

(** ** More on the validator *)

Section MoreMatcher.

Lemma chomp_line_feed s : chomp (s ++ line_feed) = s.
Proof.
  induction s as [|c s IH]; [reflexivity |].
  cbn [append chomp]. rewrite IH.
  destruct (s ++ line_feed) eqn:E; [| reflexivity].
  destruct s; discriminate.
Qed.

Lemma chomp_cases s : chomp s = s \/ s = chomp s ++ line_feed.
Proof.
  induction s as [|c s IH]; [now left |].
  destruct s as [|d s].
  - cbn. destruct (Ascii.eqb_spec c newline) as [-> | _]; [now right | now left].
  - change (chomp (String c (String d s))) with (String c (chomp (String d s))).
    destruct IH as [-> | IH]; [now left | right].
    cbn [append]. now rewrite <- IH.
Qed.

Lemma chomp_ends_with_letter s c :
  last_char s = Some c -> spec_letter c = true -> chomp s = s.
Proof.
  intros Hl Hc. destruct (chomp_cases s) as [E | E]; [exact E |].
  rewrite E in Hl. rewrite last_char_app in Hl by discriminate.
  injection Hl as <-. discriminate.
Qed.

(** X17. The validator accepts a string exactly when the string, with one
    final line feed removed if it has one, is an address of the grammar:
    local part, [@], domain, a dot and a top-level domain of two or more
    letters. *)
Theorem validate_email_is_grammar_up_to_line_feed s :
  validate_email s = true <-> spec_email (chomp s).
Proof.
  rewrite validate_email_accepts. split.
  - intros [H | (s0 & -> & H)].
    + destruct (spec_email_ends_with_letter s H) as (c & Hl & Hc).
      now rewrite (chomp_ends_with_letter s c).
    + now rewrite chomp_line_feed.
  - intros H. destruct (chomp_cases s) as [E | E].
    + left. now rewrite <- E.
    + right. now exists (chomp s).
Qed.

Lemma count_char_app c a b :
  count_char c (a ++ b) = count_char c a + count_char c b.
Proof.
  induction a as [|x a IH]; [reflexivity |].
  cbn [append count_char]. rewrite IH. lia.
Qed.

Lemma count_char_excluded (f : ascii -> bool) c s :
  f c = false -> all_chars f s = true -> count_char c s = 0.
Proof.
  intros Hc. induction s as [|x s IH]; [reflexivity |].
  cbn [all_chars count_char]. intros H. apply andb_true_iff in H as [Hx Hs].
  rewrite (IH Hs). destruct (Ascii.eqb_spec x c) as [-> | _]; [| reflexivity].
  rewrite Hc in Hx. discriminate.
Qed.

Lemma all_chars_weaken (f g : ascii -> bool) s :
  (forall c, f c = true -> g c = true) -> all_chars f s = true -> all_chars g s = true.
Proof.
  intros Hfg. induction s as [|x s IH]; [reflexivity |].
  cbn [all_chars]. intros H. apply andb_true_iff in H as [Hx Hs].
  now rewrite (Hfg x Hx), (IH Hs).
Qed.

Lemma domain_char_is_local c : spec_domain_char c = true -> spec_local_char c = true.
Proof. destruct c as [[] [] [] [] [] [] [] []]; cbn; intros H; (exact H || reflexivity). Qed.

Lemma letter_is_local c : spec_letter c = true -> spec_local_char c = true.
Proof. destruct c as [[] [] [] [] [] [] [] []]; cbn; intros H; (exact H || reflexivity). Qed.

(** X18. What every accepted string looks like: it has six characters
    at least, exactly one [@], and, up to one final line feed, consists
    only of ASCII letters, digits and the characters [. _ % + - @]; in
    particular it has no blank and no character outside ASCII. *)
Theorem accepted_addresses_are_plain s :
  validate_email s = true ->
  6 <= String.length s /\
  count_char "@" s = 1 /\
  all_chars (fun c => spec_local_char c || Ascii.eqb c "@") (chomp s) = true.
Proof.
  intros H. pose proof H as Hshape.
  apply validate_email_shape in Hshape
    as (l & d & t & tail & -> & Ll & Hl & Ld & Hd & Lt & Ht & Htail).
  split; [| split].
  - rewrite !length_app_str. cbn [String.length]. lia.
  - rewrite !count_char_app.
    rewrite (count_char_excluded spec_local_char "@" l eq_refl Hl).
    rewrite (count_char_excluded spec_domain_char "@" d eq_refl Hd).
    rewrite (count_char_excluded spec_letter "@" t eq_refl Ht).
    destruct Htail as [-> | ->]; reflexivity.
  - assert (E : chomp (l ++ "@" ++ d ++ "." ++ t ++ tail) = l ++ "@" ++ d ++ "." ++ t).
    { destruct Htail as [-> | ->].
      - rewrite app_str_empty_r.
        assert (Hs : spec_email (l ++ "@" ++ d ++ "." ++ t))
          by (exists l, d, t; repeat split; assumption).
        destruct (spec_email_ends_with_letter _ Hs) as (c & Hc & Hlet).
        now apply (chomp_ends_with_letter _ c).
      - replace (l ++ "@" ++ d ++ "." ++ t ++ line_feed)
          with ((l ++ "@" ++ d ++ "." ++ t) ++ line_feed)
          by now rewrite !app_str_assoc.
        apply chomp_line_feed. }
    rewrite E, !all_chars_app.
    rewrite (all_chars_weaken spec_local_char _ l)
      by (try exact Hl; intros c Hc; now rewrite Hc).
    rewrite (all_chars_weaken spec_domain_char _ d)
      by (try exact Hd; intros c Hc; now rewrite (domain_char_is_local c Hc)).
    rewrite (all_chars_weaken spec_letter _ t)
      by (try exact Ht; intros c Hc; now rewrite (letter_is_local c Hc)).
    reflexivity.
Qed.

End MoreMatcher.

(** ** The scraping script *)

Section ScrapingFacts.

Local Open Scope N_scope.

Implicit Types (world : Scraping.World) (t : Scraping.text) (c : N).

Lemma add_paragraphs_run (paras : list Scraping.text) :
  Scraping.add_paragraphs paras = (flat_map Scraping.paragraph_effects paras, inr tt).
Proof.
  induction paras as [|para rest IH]; [reflexivity |].
  cbn [Scraping.add_paragraphs flat_map]. unfold Scraping.paragraph_effects at 1.
  destruct (Scraping.strip para) as [|c t]; [exact IH |].
  rewrite IH. reflexivity.
Qed.

(** The whole trace of a run whose page is fetched and whose title can be
    encoded. *)
Ltac scrape_eval :=
  cbn [Scraping.bind Scraping.perform Scraping.ret Scraping.raise
       Scraping.encode_title app].

Lemma scrape_rendered world url name page :
  Scraping.renders world url = Some page ->
  Scraping.scrape_website_to_pdf world url name
  = (Scraping.heading url page
     ++ flat_map Scraping.paragraph_effects (Scraping.paragraphs page)
     ++ [Scraping.Pdf (Scraping.output name);
         Scraping.Printed
           match Scraping.pdf_output world name with
           | None => "Content saved to " ++ name
           | Some e => "An error occurred: " ++ e
           end])%list.
Proof.
  unfold Scraping.renders, Scraping.scrape_website_to_pdf, Scraping.try_body.
  destruct (Scraping.requests_get world url) as [e | r]; [discriminate |].
  scrape_eval.
  destruct (Scraping.raise_for_status r) as [e |]; [discriminate |].
  scrape_eval. unfold Scraping.heading, Scraping.shown_title.
  destruct (Scraping.title (Scraping.soup r)) as [[t |] |] eqn:Ht;
    [| discriminate |]; intros E; injection E as <-; rewrite Ht;
    scrape_eval; rewrite add_paragraphs_run; scrape_eval;
    destruct (Scraping.pdf_output world name) as [e |];
    scrape_eval; rewrite <- ?app_assoc; reflexivity.
Qed.

(** The trace of a run that stops before the file is written. *)
Lemma scrape_not_rendered world url name :
  Scraping.renders world url = None ->
  exists e,
    Scraping.scrape_website_to_pdf world url name
    = [Scraping.HttpGet url; Scraping.Printed ("An error occurred: " ++ e)]
    \/ Scraping.scrape_website_to_pdf world url name
       = [Scraping.HttpGet url;
          Scraping.Pdf (Scraping.set_auto_page_break true 15);
          Scraping.Pdf Scraping.add_page;
          Scraping.Pdf (Scraping.set_font "Arial" "" 12);
          Scraping.Pdf (Scraping.set_font "Arial" "B" 16);
          Scraping.Printed ("An error occurred: " ++ e)].
Proof.
  unfold Scraping.renders, Scraping.scrape_website_to_pdf, Scraping.try_body.
  destruct (Scraping.requests_get world url) as [e | r];
    [intros _; exists e; now left |].
  scrape_eval.
  destruct (Scraping.raise_for_status r) as [e |];
    [intros _; exists e; now left |].
  scrape_eval.
  destruct (Scraping.title (Scraping.soup r)) as [[t |] |]; try discriminate.
  intros _. eexists. right. reflexivity.
Qed.

Lemma latin1_replace_bound t : Forall (fun c => c <= 255) (Scraping.latin1_replace t).
Proof.
  unfold Scraping.latin1_replace. apply Forall_map, Forall_forall. intros c _.
  destruct (N.leb_spec c 255); [assumption | lia].
Qed.

(** X19. Whatever the page holds, every text handed to the PDF (the
    title to [cell], the paragraphs to [multi_cell]) consists of Latin-1
    characters only: each character above 255 has been replaced by [?]. *)
Theorem drawn_text_is_latin1 world url name txt :
  In txt (flat_map Scraping.drawn_text
            (Scraping.scrape_website_to_pdf world url name)) ->
  Forall (fun c => c <= 255) txt.
Proof.
  destruct (Scraping.renders world url) as [page |] eqn:Hr.
  - rewrite (scrape_rendered world url name page Hr), !flat_map_app.
    intros H. apply in_app_or in H as [H | H]; [| apply in_app_or in H as [H | H]].
    + cbn in H. destruct H as [<- | []]. apply latin1_replace_bound.
    + apply in_flat_map in H as (e & He & H).
      apply in_flat_map in He as (para & _ & He).
      unfold Scraping.paragraph_effects in He.
      destruct (Scraping.strip para) as [|c t]; [contradiction |].
      destruct He as [<- | [<- | []]]; [| contradiction].
      destruct H as [<- | []]. apply latin1_replace_bound.
    + cbn in H. contradiction.
  - destruct (scrape_not_rendered world url name Hr) as (e & [-> | ->]);
      cbn; contradiction.
Qed.

Lemma lstrip_head t c :
  hd_error (Scraping.lstrip t) = Some c -> Scraping.isspace c = false.
Proof.
  induction t as [|d t IH]; [discriminate |].
  cbn [Scraping.lstrip]. destruct (Scraping.isspace d) eqn:Hd; [exact IH |].
  intros H. injection H as <-. exact Hd.
Qed.

Lemma lstrip_suffix t : exists pre, t = (pre ++ Scraping.lstrip t)%list.
Proof.
  induction t as [|d t [pre IH]]; [now exists [] |].
  cbn [Scraping.lstrip]. destruct (Scraping.isspace d); [| now exists []].
  exists (d :: pre). cbn. now rewrite <- IH.
Qed.

Lemma rstrip_prefix t : exists suf, t = (Scraping.rstrip t ++ suf)%list.
Proof.
  unfold Scraping.rstrip. destruct (lstrip_suffix (rev t)) as [pre E].
  exists (rev pre). rewrite <- rev_app_distr, <- E. now rewrite rev_involutive.
Qed.

Lemma strip_first t c :
  hd_error (Scraping.strip t) = Some c -> Scraping.isspace c = false.
Proof.
  unfold Scraping.strip. intros H.
  destruct (rstrip_prefix (Scraping.lstrip t)) as [suf E].
  apply (lstrip_head t). rewrite E.
  destruct (Scraping.rstrip (Scraping.lstrip t)); [discriminate | exact H].
Qed.

Lemma strip_last t c :
  hd_error (rev (Scraping.strip t)) = Some c -> Scraping.isspace c = false.
Proof.
  unfold Scraping.strip, Scraping.rstrip. rewrite rev_involutive. apply lstrip_head.
Qed.

Lemma latin1_not_space c :
  Scraping.isspace c = false ->
  Scraping.isspace (if c <=? 255 then c else 63) = false.
Proof. intros H. now destruct (c <=? 255). Qed.

Lemma latin1_head_not_space t c :
  (forall d, hd_error t = Some d -> Scraping.isspace d = false) ->
  hd_error (Scraping.latin1_replace t) = Some c -> Scraping.isspace c = false.
Proof.
  destruct t as [|d t]; [discriminate |]. cbn. intros H E. injection E as <-.
  apply latin1_not_space. now apply H.
Qed.

Lemma paragraph_text_effects para :
  flat_map Scraping.paragraph_text (Scraping.paragraph_effects para)
  = if Scraping.has_text para
    then [Scraping.latin1_replace (Scraping.strip para)]
    else [].
Proof.
  unfold Scraping.paragraph_effects, Scraping.has_text.
  now destruct (Scraping.strip para).
Qed.

Lemma paragraph_texts (paras : list Scraping.text) :
  flat_map Scraping.paragraph_text (flat_map Scraping.paragraph_effects paras)
  = map (fun para => Scraping.latin1_replace (Scraping.strip para))
        (filter Scraping.has_text paras).
Proof.
  induction paras as [|para rest IH]; [reflexivity |].
  cbn [flat_map filter]. rewrite flat_map_app, paragraph_text_effects, IH.
  now destruct (Scraping.has_text para).
Qed.

(** X20. When the page is fetched and its title can be encoded, the
    paragraphs written with [multi_cell] are, in document order, the
    stripped and re-encoded texts of exactly those [p] tags that hold
    something besides whitespace; so no written paragraph is empty, and
    none begins or ends with a whitespace character. *)
Theorem paragraphs_are_stripped_and_nonblank world url name page :
  Scraping.renders world url = Some page ->
  flat_map Scraping.paragraph_text (Scraping.scrape_website_to_pdf world url name)
  = map (fun para => Scraping.latin1_replace (Scraping.strip para))
        (filter Scraping.has_text (Scraping.paragraphs page)) /\
  (forall txt,
      In txt (flat_map Scraping.paragraph_text
                (Scraping.scrape_website_to_pdf world url name)) ->
      txt <> [] /\
      (forall c, hd_error txt = Some c -> Scraping.isspace c = false) /\
      (forall c, hd_error (rev txt) = Some c -> Scraping.isspace c = false)).
Proof.
  intros Hr.
  assert (E : flat_map Scraping.paragraph_text
                (Scraping.scrape_website_to_pdf world url name)
              = map (fun para => Scraping.latin1_replace (Scraping.strip para))
                    (filter Scraping.has_text (Scraping.paragraphs page))).
  { rewrite (scrape_rendered world url name page Hr), !flat_map_app, paragraph_texts.
    unfold Scraping.heading. cbn [flat_map Scraping.paragraph_text app].
    rewrite ?app_nil_r. reflexivity. }
  split; [exact E |]. rewrite E. intros txt H.
  apply in_map_iff in H as (para & <- & H). apply filter_In in H as [_ H].
  unfold Scraping.has_text in H. split; [| split].
  - destruct (Scraping.strip para); [discriminate | discriminate].
  - intros c. apply latin1_head_not_space. intros d. apply strip_first.
  - intros c. unfold Scraping.latin1_replace. rewrite <- map_rev.
    apply (latin1_head_not_space (rev (Scraping.strip para))).
    intros d. apply strip_last.
Qed.

Lemma paragraphs_print_nothing (paras : list Scraping.text) :
  filter Scraping.is_printed (flat_map Scraping.paragraph_effects paras) = [] /\
  existsb Scraping.is_output (flat_map Scraping.paragraph_effects paras) = false.
Proof.
  induction paras as [|para rest [IH1 IH2]]; [now split |].
  cbn [flat_map]. rewrite filter_app, existsb_app, IH1, IH2.
  unfold Scraping.paragraph_effects. now destruct (Scraping.strip para).
Qed.

(** X21. Every call prints exactly one line, as its last effect, and no
    exception escapes: the line is "Content saved to" the file exactly
    when the page was fetched, its title could be encoded and
    [pdf.output] did not raise, and is "An error occurred: ..." otherwise.
    [pdf.output] is called exactly when the page was fetched and its title
    could be encoded; a failed request or an HTTP error status writes no
    file. *)
Theorem one_line_printed_and_file_written_when_rendered world url name :
  exists before line,
    Scraping.scrape_website_to_pdf world url name
    = (before ++ [Scraping.Printed line])%list /\
    filter Scraping.is_printed before = [] /\
    (line = "Content saved to " ++ name
     \/ exists e, line = "An error occurred: " ++ e) /\
    (line = "Content saved to " ++ name <->
     Scraping.renders world url <> None /\ Scraping.pdf_output world name = None) /\
    (existsb Scraping.is_output before = true <-> Scraping.renders world url <> None).
Proof.
  destruct (Scraping.renders world url) as [page |] eqn:Hr.
  - rewrite (scrape_rendered world url name page Hr).
    destruct (paragraphs_print_nothing (Scraping.paragraphs page)) as [P1 P2].
    exists (Scraping.heading url page
            ++ flat_map Scraping.paragraph_effects (Scraping.paragraphs page)
            ++ [Scraping.Pdf (Scraping.output name)])%list.
    eexists. split; [now rewrite <- !app_assoc |].
    split; [now rewrite !filter_app, P1 |].
    split; [destruct (Scraping.pdf_output world name) as [e |];
            [right; now exists e | now left] |].
    split.
    + destruct (Scraping.pdf_output world name) as [e |].
      * split; [intros H; cbn in H; discriminate | intros [_ H]; discriminate].
      * split; intros _; [split; [discriminate | reflexivity] | reflexivity].
    + rewrite !existsb_app, P2. cbn. rewrite ?orb_true_r.
      split; intros _; [discriminate | reflexivity].
  - destruct (scrape_not_rendered world url name Hr) as (e & [-> | ->]).
    + exists [Scraping.HttpGet url]. eexists. split; [reflexivity |].
      split; [reflexivity |]. split; [right; now exists e |].
      split; split; try (intros H; cbn in H; discriminate);
        try (intros [H _]; now contradiction H); intros H; now contradiction H.
    + eexists [_; _; _; _; _]. eexists. split; [reflexivity |].
      split; [reflexivity |]. split; [right; now exists e |].
      split; split; try (intros H; cbn in H; discriminate);
        try (intros [H _]; now contradiction H); intros H; now contradiction H.
Qed.

End ScrapingFacts.

(** ** The further theorems at work on concrete inputs *)

Lemma init_session_state_fills_missing_keys_witness :
  key_conversation_stage Samples.partial_store = Some details /\
  key_chat_history Samples.partial_store = None /\
  conversation_stage (init_session_state Samples.partial_store) = details /\
  chat_history (init_session_state Samples.partial_store) = [].
Proof.
  split; [reflexivity |]. split; [reflexivity |].
  destruct (init_session_state_fills_missing_keys Samples.partial_store)
    as (_ & _ & _ & _ & H5 & _ & _ & _ & H9 & _).
  split; [apply H5 | apply H9]; reflexivity.
Defined.

Lemma process_all_in_order_witness :
  (forall pdf, In pdf ["a"; "b"] -> process_pdf Samples.picky pdf = Some [pdf]) /\
  process_pdf Samples.picky "" = None /\
  process_all Samples.picky (["a"; "b"] ++ "" :: ["c"]) new_session
  = (None, new_session, map ProcessPdf (["a"; "b"] ++ [""])).
Proof.
  assert (H : forall pdf, In pdf ["a"; "b"] -> process_pdf Samples.picky pdf = Some [pdf]).
  { intros pdf [<- | [<- | []]]; reflexivity. }
  split; [exact H |]. split; [reflexivity |].
  apply (proj2 (process_all_in_order Samples.picky) ["a"; "b"] "" ["c"]
               (fun pdf => [pdf])); [exact H | reflexivity].
Defined.

Lemma failed_ingestion_commits_nothing_witness :
  nav_stage (Demo.process [""]) (@new_session (list string)) = initial /\
  btn_process_pdfs (Demo.process [""]) = true /\
  pdf_docs (Demo.process [""]) <> [] /\
  ingest Samples.picky (pdf_docs (Demo.process [""])) = None /\
  outcome (main (Demo.process [""]) Samples.picky new_session) = None /\
  state_after (main (Demo.process [""]) Samples.picky new_session)
  = with_conversation_stage initial new_session.
Proof.
  split; [reflexivity |]. split; [reflexivity |]. split; [discriminate |].
  split; [reflexivity |].
  apply failed_ingestion_commits_nothing; solve [reflexivity | discriminate].
Defined.

Lemma failed_overview_leaves_chain_witness :
  nav_stage (Demo.process ["no overview"]) (@new_session (list string)) = initial /\
  btn_process_pdfs (Demo.process ["no overview"]) = true /\
  pdf_docs (Demo.process ["no overview"]) <> [] /\
  ingest Samples.picky (pdf_docs (Demo.process ["no overview"])) = Some ["no overview"] /\
  invoke_chain Samples.picky ["no overview"] overview_prompt [] = None /\
  outcome (main (Demo.process ["no overview"]) Samples.picky new_session) = None /\
  state_after (main (Demo.process ["no overview"]) Samples.picky new_session)
  = with_processed_pdfs true
      (with_conversation (Some ["no overview"])
         (with_conversation_stage initial new_session)).
Proof.
  split; [reflexivity |]. split; [reflexivity |]. split; [discriminate |].
  split; [reflexivity |]. split; [reflexivity |].
  apply failed_overview_leaves_chain; solve [reflexivity | discriminate].
Defined.

Lemma successful_ingestion_witness :
  nav_stage (Demo.process [Demo.acme]) (@new_session (list string)) = initial /\
  btn_process_pdfs (Demo.process [Demo.acme]) = true /\
  pdf_docs (Demo.process [Demo.acme]) <> [] /\
  ingest Demo.lib (pdf_docs (Demo.process [Demo.acme])) = Some [Demo.acme] /\
  invoke_chain Demo.lib [Demo.acme] overview_prompt [] = Some Demo.acme /\
  conversation (state_after (main (Demo.process [Demo.acme]) Demo.lib new_session))
  = Some [Demo.acme] /\
  company_overview (state_after (main (Demo.process [Demo.acme]) Demo.lib new_session))
  = Some Demo.acme.
Proof.
  split; [reflexivity |]. split; [reflexivity |]. split; [discriminate |].
  split; [reflexivity |]. split; [reflexivity |].
  destruct (successful_ingestion (Demo.process [Demo.acme]) Demo.lib new_session
              [Demo.acme] Demo.acme)
    as (H1 & _ & H3 & _); solve [reflexivity | discriminate | now split].
Defined.

Lemma reachable_sessions_are_ready_witness :
  conversation_stage
    (session_from new_session [(Demo.process [Demo.acme], Demo.lib)]) <> initial /\
  processed_pdfs (session_from new_session [(Demo.process [Demo.acme], Demo.lib)])
  = true.
Proof.
  split; [discriminate |].
  apply (proj1 (reachable_sessions_are_ready [(Demo.process [Demo.acme], Demo.lib)])).
  discriminate.
Defined.

Lemma nothing_happens_before_ingestion_witness :
  processed_pdfs (@new_session (list string)) = false /\
  conversation_stage (@new_session (list string)) = initial /\
  btn_process_pdfs Samples.everything_else
  && list_truthy (pdf_docs Samples.everything_else) = false /\
  outcome (main Samples.everything_else Samples.picky new_session) = Some tt /\
  state_after (main Samples.everything_else Samples.picky new_session) = new_session.
Proof.
  split; [reflexivity |]. split; [reflexivity |]. split; [reflexivity |].
  apply nothing_happens_before_ingestion; reflexivity.
Defined.

Lemma ingestion_is_never_undone_witness :
  processed_pdfs Demo.in_details = true /\
  processed_pdfs
    (session_from Demo.in_details
       [(Demo.upload_documents, Samples.picky); (Demo.process [""], Samples.picky)])
  = true.
Proof.
  split; [reflexivity |].
  apply (proj1 (ingestion_is_never_undone
                  [(Demo.upload_documents, Samples.picky);
                   (Demo.process [""], Samples.picky)] Demo.in_details)).
  reflexivity.
Defined.

Lemma completion_message_repeats_witness :
  conversation_stage Demo.in_complete = complete /\
  Forall (fun r : @Widgets string * @Libraries string string (list string) (list string) =>
            no_navigation (fst r) = true)
         [(Demo.idle, Demo.lib); (Demo.idle, Demo.lib)] /\
  session_from Demo.in_complete [(Demo.idle, Demo.lib); (Demo.idle, Demo.lib)]
  = with_messages
      (messages Demo.in_complete
       ++ repeat (mkMessage system (Some "Conversation completed")) 2)%list
      Demo.in_complete.
Proof.
  split; [reflexivity |]. split; [repeat constructor |].
  apply (completion_message_repeats [(Demo.idle, Demo.lib); (Demo.idle, Demo.lib)]);
    [reflexivity | repeat constructor].
Defined.

Lemma declined_offer_repeats_witness :
  conversation_stage Samples.in_offer = offer_profile /\
  Forall (fun r : @Widgets string * @Libraries string string (list string) (list string) =>
            no_navigation (fst r) = true /\ email_option (fst r) = No)
         [(Samples.decline, Demo.lib); (Samples.decline, Demo.lib)] /\
  session_from Samples.in_offer [(Samples.decline, Demo.lib); (Samples.decline, Demo.lib)]
  = with_messages
      (messages Samples.in_offer
       ++ repeat (mkMessage system (Some "User declined company profile")) 2)%list
      Samples.in_offer.
Proof.
  split; [reflexivity |]. split; [repeat constructor |].
  apply (declined_offer_repeats
           [(Samples.decline, Demo.lib); (Samples.decline, Demo.lib)]);
    [reflexivity | repeat constructor].
Defined.

Lemma accepted_offer_waits_for_email_witness :
  (conversation_stage Samples.in_offer = offer_profile /\
   navigated Demo.idle Samples.in_offer = false /\
   email_option Demo.idle = Yes /\
   btn_confirm_email Demo.idle = false /\
   conversation_stage (state_after (main Demo.idle Demo.lib Samples.in_offer))
   = collect_email) /\
  (conversation_stage Demo.in_collect_email = collect_email /\
   navigated Demo.idle Demo.in_collect_email = false /\
   btn_confirm_email Demo.idle = false /\
   state_after (main Demo.idle Demo.lib Demo.in_collect_email) = Demo.in_collect_email).
Proof.
  split.
  - split; [reflexivity |]. split; [reflexivity |].
    split; [reflexivity |]. split; [reflexivity |].
    destruct (proj1 accepted_offer_waits_for_email Demo.idle Demo.lib Samples.in_offer)
      as [_ ->]; reflexivity.
  - split; [reflexivity |]. split; [reflexivity |]. split; [reflexivity |].
    apply (proj2 accepted_offer_waits_for_email Demo.idle Demo.lib); reflexivity.
Defined.

Lemma unanswered_question_stays_logged_witness :
  conversation_stage Demo.in_details = details /\
  navigated (Demo.question "?") Demo.in_details = false /\
  user_question (Demo.question "?") <> "" /\
  invoke_chain Samples.picky [Demo.acme] "?" [] = None /\
  outcome (main (Demo.question "?") Samples.picky Demo.in_details) = None /\
  state_after (main (Demo.question "?") Samples.picky Demo.in_details)
  = with_messages (messages Demo.in_details ++ [mkMessage user (Some "?")])%list
      Demo.in_details.
Proof.
  split; [reflexivity |]. split; [reflexivity |]. split; [discriminate |].
  split; [reflexivity |].
  apply (unanswered_question_stays_logged (Demo.question "?") Samples.picky
           Demo.in_details); solve [reflexivity | discriminate].
Defined.

Lemma quiet_runs_never_raise_witness :
  btn_process_pdfs Demo.full_profile = false /\
  user_question Demo.full_profile = "" /\
  outcome (main Demo.full_profile Samples.picky Demo.in_details) = Some tt.
Proof.
  split; [reflexivity |]. split; [reflexivity |].
  apply quiet_runs_never_raise; reflexivity.
Defined.

Lemma default_radios_skip_their_pages_witness :
  (email_option Demo.full_profile = Yes /\
   conversation_stage (state_after (main Demo.full_profile Demo.lib Demo.in_details))
   <> offer_profile) /\
  (want_more (Demo.process [Demo.acme]) = Yes /\
   (processed_pdfs (@new_session (list string)) = true
    \/ conversation_stage (@new_session (list string)) <> overview) /\
   conversation_stage
     (state_after (main (Demo.process [Demo.acme]) Demo.lib new_session)) <> overview).
Proof.
  split.
  - split; [reflexivity |].
    apply (proj1 (default_radios_skip_their_pages Demo.full_profile Demo.lib
                    Demo.in_details)). reflexivity.
  - split; [reflexivity |]. split; [right; discriminate |].
    apply (proj2 (default_radios_skip_their_pages (Demo.process [Demo.acme]) Demo.lib
                    new_session)); [reflexivity | right; discriminate].
Defined.

Lemma want_more_moves_to_details_witness :
  conversation_stage Samples.in_overview = overview /\
  processed_pdfs Samples.in_overview = true /\
  navigated Demo.idle Samples.in_overview = false /\
  want_more Demo.idle = Yes /\
  user_question Demo.idle = "" /\
  btn_full_profile Demo.idle = false /\
  conversation_stage (state_after (main Demo.idle Demo.lib Samples.in_overview))
  = details.
Proof.
  split; [reflexivity |]. split; [reflexivity |]. split; [reflexivity |].
  split; [reflexivity |]. split; [reflexivity |]. split; [reflexivity |].
  destruct (want_more_moves_to_details Demo.idle Demo.lib Samples.in_overview)
    as [_ ->]; reflexivity.
Defined.

Lemma full_profile_runs_the_offer_witness :
  conversation_stage Demo.in_details = details /\
  navigated Samples.full_profile_declined Demo.in_details = false /\
  user_question Samples.full_profile_declined = "" /\
  btn_full_profile Samples.full_profile_declined = true /\
  btn_confirm_email Samples.full_profile_declined = false /\
  state_after (main Samples.full_profile_declined Demo.lib Demo.in_details)
  = with_conversation_stage offer_profile
      (with_messages
         (messages Demo.in_details
          ++ [mkMessage system (Some "User declined company profile")])%list
         Demo.in_details).
Proof.
  split; [reflexivity |]. split; [reflexivity |]. split; [reflexivity |].
  split; [reflexivity |]. split; [reflexivity |].
  apply (full_profile_runs_the_offer Samples.full_profile_declined Demo.lib
           Demo.in_details); reflexivity.
Defined.

Lemma validate_email_is_grammar_up_to_line_feed_witness :
  validate_email ("a@b.cd" ++ line_feed) = true /\
  spec_email (chomp ("a@b.cd" ++ line_feed)).
Proof.
  split; [reflexivity |].
  apply (proj1 (validate_email_is_grammar_up_to_line_feed ("a@b.cd" ++ line_feed))).
  reflexivity.
Defined.

Lemma accepted_addresses_are_plain_witness :
  validate_email "a@b.cd" = true /\
  6 <= String.length "a@b.cd" /\
  count_char "@" "a@b.cd" = 1 /\
  all_chars (fun c => spec_local_char c || Ascii.eqb c "@") (chomp "a@b.cd") = true.
Proof.
  split; [reflexivity |]. apply accepted_addresses_are_plain. reflexivity.
Defined.

Lemma drawn_text_is_latin1_witness :
  In [63; 63]%N
     (flat_map Scraping.drawn_text
        (Scraping.scrape_website_to_pdf Scraping.sample_world "u" "f.pdf")) /\
  Forall (fun c => (c <= 255)%N) [63; 63]%N.
Proof.
  assert (H : In [63; 63]%N
                (flat_map Scraping.drawn_text
                   (Scraping.scrape_website_to_pdf Scraping.sample_world "u" "f.pdf")))
    by (left; reflexivity).
  split; [exact H |].
  exact (drawn_text_is_latin1 Scraping.sample_world "u" "f.pdf" [63; 63]%N H).
Defined.

Lemma paragraphs_are_stripped_and_nonblank_witness :
  Scraping.renders Scraping.sample_world "u" = Some Scraping.sample_soup /\
  flat_map Scraping.paragraph_text
    (Scraping.scrape_website_to_pdf Scraping.sample_world "u" "f.pdf")
  = map (fun para => Scraping.latin1_replace (Scraping.strip para))
        (filter Scraping.has_text (Scraping.paragraphs Scraping.sample_soup)).
Proof.
  split; [reflexivity |].
  apply (proj1 (paragraphs_are_stripped_and_nonblank Scraping.sample_world "u" "f.pdf"
                  Scraping.sample_soup eq_refl)).
Defined.
